(** * Route-Plotter: a shallow embedding of [routePlotter.py]

    The development follows the Python module class by class:
    [Coordinate], the exception classes, the [RoutePlotter] class with its
    constructor and methods, and the [fromFile] loader.  Python integers are
    unbounded, hence [Z]; Python lists are [list] with the interpreter's
    index rules (negative indices count from the end, anything else out of
    range raises [IndexError]); the class-level dictionary [_moves] is a
    [gmap]; methods run in a small state-and-exception monad whose state
    holds the object and the text written to standard output. *)

From Stdlib Require Import ZArith Lia Ascii String DecimalString.
From stdpp Require Import base tactics option list gmap strings.

Local Open Scope Z_scope.

(** ** Exceptions and outcomes *)

(** The exception classes that the module raises or catches.  Only the class
    is kept: no claim below depends on a message text. *)
Inductive exn : Type :=
  | ValueError
  | TypeError
  | KeyError
  | IndexError
  | FileNotFoundError
  | OutOfGridError.

#[global] Instance exn_eq_dec : EqDecision exn.
Proof. solve_decision. Defined.

Inductive result (A : Type) : Type :=
  | Return (a : A)
  | Raise (e : exn).
Arguments Return {A} a.
Arguments Raise {A} e.

(** A computation over a mutable state [S]: the state after the call and
    either the returned value or the exception that left the call. *)
Definition M (S A : Type) : Type := S -> S * result A.

Definition ret {S A} (a : A) : M S A := fun s => (s, Return a).

Definition bind {S A B} (m : M S A) (k : A -> M S B) : M S B :=
  fun s => match m s with
           | (s', Return a) => k a s'
           | (s', Raise e) => (s', Raise e)
           end.

Definition raise {S A} (e : exn) : M S A := fun s => (s, Raise e).

Definition lift {S A} (r : result A) : M S A := fun s => (s, r).

Definition get {S} : M S S := fun s => (s, Return s).

Definition put {S} (s : S) : M S unit := fun _ => (s, Return tt).

Declare Scope py_scope.
Delimit Scope py_scope with py.
Notation "x <- m ;; k" := (bind m (fun x => k))
  (at level 100, m at next level, right associativity) : py_scope.
Notation "m ;;; k" := (bind m (fun _ => k))
  (at level 100, right associativity) : py_scope.

(** [for x in l: body(x)] *)
Fixpoint for_ {S A} (l : list A) (body : A -> M S unit) : M S unit :=
  match l with
  | [] => ret tt
  | a :: l' => (body a ;;; for_ l' body)%py
  end.

(** [try: m  except e: handler] *)
Definition try_except {S A} (m : M S A) (e : exn) (handler : M S A) : M S A :=
  fun s => match m s with
           | (s', Return a) => (s', Return a)
           | (s', Raise e') => if decide (e' = e) then handler s' else (s', Raise e')
           end.

(** ** Python built-ins used by the module *)

(** Index normalisation of [list.__getitem__], [__setitem__] and [pop]:
    a negative index counts from the end. *)
Definition py_index (len : nat) (i : Z) : option nat :=
  let j := if i <? 0 then i + Z.of_nat len else i in
  if (0 <=? j) && (j <? Z.of_nat len) then Some (Z.to_nat j) else None.

(** [l[i]] *)
Definition getitem {A} (l : list A) (i : Z) : result A :=
  match py_index (length l) i with
  | Some k => match l !! k with Some a => Return a | None => Raise IndexError end
  | None => Raise IndexError
  end.

(** [l[i] = v] *)
Definition setitem {A} (l : list A) (i : Z) (v : A) : result (list A) :=
  match py_index (length l) i with
  | Some k => Return (<[k := v]> l)
  | None => Raise IndexError
  end.

(** [l.pop(i)]: the removed element and the list that remains. *)
Definition list_pop {A} (l : list A) (i : Z) : result (A * list A) :=
  match py_index (length l) i with
  | Some k => match l !! k with
              | Some a => Return (a, delete k l)
              | None => Raise IndexError
              end
  | None => Raise IndexError
  end.

(** [range(n)] *)
Definition range (n : Z) : list Z := map Z.of_nat (seq 0 (Z.to_nat n)).

(** [range(start, stop, -1)] *)
Definition range_down (start stop : Z) : list Z :=
  map (fun k => start - Z.of_nat k) (seq 0 (Z.to_nat (start - stop))).

(** [s * n] on strings *)
Definition str_mul (s : string) (n : Z) : string :=
  Nat.iter (Z.to_nat n) (fun acc => s +:+ acc) "".

(** [sep.join(l)] *)
Fixpoint join (sep : string) (l : list string) : string :=
  match l with
  | [] => ""
  | [s] => s
  | s :: l' => s +:+ sep +:+ join sep l'
  end.

(** [str(n)] for an integer. *)
Definition str_of_int (n : Z) : string := NilZero.string_of_int (Z.to_int n).

Definition spaces (n : nat) : string := Nat.iter n (String " ") "".

(** The format specifications [>w] and [^w]: pad to width [w], never
    truncate; centring puts the odd space on the right. *)
Definition fmt_right (w : nat) (s : string) : string :=
  spaces (w - String.length s) +:+ s.

Definition fmt_center (w : nat) (s : string) : string :=
  let pad := (w - String.length s)%nat in
  let left := (pad / 2)%nat in
  spaces left +:+ s +:+ spaces (pad - left).

(** [print(s)]: standard output is the list of the lines written so far. *)
Class Stdout (S : Type) : Type := write_line : string -> S -> S.

#[global] Instance Stdout_lines : Stdout (list string) :=
  fun s out => out ++ [s].

Definition print {S} `{Stdout S} (s : string) : M S unit :=
  fun st => (write_line s st, Return tt).

(** [d[k]] on a dictionary *)
Definition dict_getitem {V} (d : gmap string V) (k : string) : result V :=
  match d !! k with
  | Some v => Return v
  | None => Raise KeyError
  end.

(** Whitespace for [str.strip] and [int], on the ASCII range: tab, line
    feed, vertical tab, form feed, carriage return, the separators
    [0x1c]..[0x1f] and space. *)
Definition is_space (c : ascii) : bool :=
  let n := nat_of_ascii c in
  ((9 <=? n) && (n <=? 13) || (28 <=? n) && (n <=? 32))%nat.

Fixpoint lstrip (s : string) : string :=
  match s with
  | String c s' => if is_space c then lstrip s' else s
  | EmptyString => EmptyString
  end.

(** [s.strip()] *)
Definition strip (s : string) : string :=
  String.rev (lstrip (String.rev (lstrip s))).

Definition digit_of (c : ascii) : option Z :=
  let n := nat_of_ascii c in
  if ((48 <=? n) && (n <=? 57))%nat then Some (Z.of_nat (n - 48)) else None.

(** The digits of an integer literal: at least one digit, single underscores
    allowed between digits.  [prev] tells whether the previous character was
    a digit. *)
Fixpoint int_digits (s : string) (acc : Z) (prev : bool) : option Z :=
  match s with
  | EmptyString => if prev then Some acc else None
  | String c s' =>
      match digit_of c with
      | Some d => int_digits s' (10 * acc + d) true
      | None =>
          if (Ascii.eqb c "_" && prev)%bool then
            match s' with
            | EmptyString => None
            | String c' _ =>
                match digit_of c' with
                | Some _ => int_digits s' acc false
                | None => None
                end
            end
          else None
      end
  end.

(** [int(s)] for a string [s]: surrounding whitespace is ignored, an optional
    sign precedes the digits.  Whatever the string, the only exception is
    [ValueError]; [TypeError] is for arguments that are neither strings nor
    numbers. *)
Definition int (s : string) : result Z :=
  let body := strip s in
  let parsed :=
    match body with
    | String "-" s' => option_map Z.opp (int_digits s' 0 false)
    | String "+" s' => int_digits s' 0 false
    | _ => int_digits body 0 false
    end in
  match parsed with
  | Some n => Return n
  | None => Raise ValueError
  end.

(** [open(path, "r")] on a file system that maps a path to the lines of the
    file, each as [readline] hands it out (with its line end), when the file
    exists. *)
Definition open (fs : string -> option (list string)) (filePath : string)
  : result (list string) :=
  match fs filePath with
  | Some lines => Return lines
  | None => Raise FileNotFoundError
  end.

(** [f.readline()]: the next line and the rest of the stream; the empty
    string at the end of the file. *)
Definition readline (f : list string) : string * list string :=
  match f with
  | [] => ("", [])
  | l :: f' => (l, f')
  end.

(** ** class Coordinate *)

Module Coordinate.

Record t : Type := Coordinate { x : Z; y : Z }.

Definition __init__ (x y : Z) : t := Coordinate x y.

Definition __add__ (self object : t) : t :=
  __init__ (x self + x object) (y self + y object).

Definition __eq__ (self object : t) : bool :=
  (x self =? x object) && (y self =? y object).

Definition __str__ (self : t) : string :=
  "(" +:+ str_of_int (x self) +:+ ", " +:+ str_of_int (y self) +:+ ")".

End Coordinate.

Abbreviation Coordinate := Coordinate.Coordinate.

#[global] Instance Coordinate_eq_dec : EqDecision Coordinate.t.
Proof. solve_decision. Defined.

(** ** class RoutePlotter *)

Module RoutePlotter.

(** The instance attributes set by the constructor. *)
Record t : Type := RoutePlotter {
  _rows : Z;
  _cols : Z;
  _coords : list Coordinate.t;
  _matrix : list (list string);
  _rowSep : string
}.

Definition set_coords (l : list Coordinate.t) (self : t) : t :=
  RoutePlotter (_rows self) (_cols self) l (_matrix self) (_rowSep self).

Definition set_matrix (m : list (list string)) (self : t) : t :=
  RoutePlotter (_rows self) (_cols self) (_coords self) m (_rowSep self).

(** What a method call can change: the object and standard output. *)
Record World : Type := mkWorld { self : t; stdout : list string }.

#[global] Instance Stdout_World : Stdout World :=
  fun s w => mkWorld (self w) (stdout w ++ [s]).

Definition get_self : M World t := fun w => (w, Return (self w)).

Definition modify_self (f : t -> t) : M World unit :=
  fun w => (mkWorld (f (self w)) (stdout w), Return tt).

(** Runs a computation on [self._matrix], the object being otherwise left
    as it is: the matrix is mutated in place. *)
Definition on_matrix {A} (m : M (list (list string)) A) : M World A :=
  fun w => match m (_matrix (self w)) with
           | (mx, r) => (mkWorld (set_matrix mx (self w)) (stdout w), r)
           end.

(** The class attribute [_moves]. *)
Definition _moves : gmap string Coordinate.t :=
  <["N" := Coordinate 0 1]> (<["S" := Coordinate 0 (-1)]>
  (<["E" := Coordinate 1 0]> (<["W" := Coordinate (-1) 0]> ∅))).

Definition _checkPos (self : t) (coord : Coordinate.t) : bool :=
  if ((Coordinate.x coord >=? 1) && (Coordinate.x coord <=? _cols self))
     && ((Coordinate.y coord >=? 1) && (Coordinate.y coord <=? _rows self))
  then true
  else false.

(** The default value of the parameter [initialPos]. *)
Definition default_initialPos : Coordinate.t := Coordinate 1 1.

Section Platform.

(** [os.linesep], which depends on the platform. *)
Variable linesep : string.

(** The constructor: the object it builds, or the exception it raises. *)
Definition __init__ (rows cols : Z) (initialPos : Coordinate.t) : result t :=
  if (rows <=? 0) || (cols <=? 0) then Raise ValueError
  else
    let self :=
      RoutePlotter rows cols [] []
        (str_mul "---:" (rows + 1) +:+ "---" +:+ linesep) in
    if _checkPos self initialPos
    then Return (set_coords (_coords self ++ [initialPos]) self)
    else Raise OutOfGridError.

Definition removeCoord (index : option Z) : M World unit :=
  (s <- get_self ;;
   match index with
   | None =>
       r <- lift (list_pop (_coords s) (-1)) ;;
       modify_self (set_coords (snd r))
   | Some i =>
       r <- lift (list_pop (_coords s) i) ;;
       modify_self (set_coords (snd r))
   end)%py.

Definition printCoords : M World unit :=
  (s <- get_self ;;
   for_ (_coords s) (fun coord => print (Coordinate.__str__ coord)))%py.

(** [self._matrix[coord.y - 1][coord.x - 1] = "x"]: the row is fetched, then
    written through; the matrix keeps pointing to the same row object. *)
Definition mark (coord : Coordinate.t) : M (list (list string)) unit :=
  (matrix <- get ;;
   row <- lift (getitem matrix (Coordinate.y coord - 1)) ;;
   row' <- lift (setitem row (Coordinate.x coord - 1) "x") ;;
   matrix' <- lift (setitem matrix (Coordinate.y coord - 1) row') ;;
   put matrix')%py.

(** The loop over the rows of [drawRoute], on the text built so far. *)
Fixpoint draw_rows (rowSep : string) (matrix : list (list string))
    (indices : list Z) (grid : string) : result string :=
  match indices with
  | [] => Return grid
  | i :: indices' =>
      match getitem matrix i with
      | Return row =>
          draw_rows rowSep matrix indices'
            (grid +:+ (fmt_right 3 (str_of_int (i + 1)) +:+ ": "
                       +:+ join (fmt_center 3 ":") row
                       +:+ fmt_right 2 ":" +:+ linesep)
                  +:+ rowSep)
      | Raise e => Raise e
      end
  end.

Definition drawRoute : M World string :=
  (s <- get_self ;;
   modify_self
     (set_matrix (map (fun r => map (fun c => " ") (range (_cols s)))
                      (range (_rows s)))) ;;;
   on_matrix (for_ (_coords s) mark) ;;;
   s <- get_self ;;
   let grid := str_mul (fmt_right 4 ":") (_cols s + 1)
               +:+ fmt_center 3 " " +:+ linesep in
   let grid := grid +:+ _rowSep s in
   grid <- lift (draw_rows (_rowSep s) (_matrix s)
                   (range_down (_rows s - 1) (-1)) grid) ;;
   let grid := grid +:+ (fmt_right 4 ":"
               +:+ join ":" (map (fun i => fmt_center 3 (str_of_int (i + 1)))
                                 (range (_cols s)))
               +:+ ":") in
   ret grid)%py.

Definition printRoute : M World unit :=
  (grid <- drawRoute ;; print grid)%py.

Definition move (direction : string) : M World unit :=
  (s <- get_self ;;
   prevPos <- lift (getitem (_coords s) (-1)) ;;
   newPos <-
     try_except
       (delta <- lift (dict_getitem _moves direction) ;;
        ret (Some (Coordinate.__add__ prevPos delta)))
       KeyError
       (print ("Provided direction " +:+ direction +:+ " is invalid") ;;;
        ret None) ;;
   match newPos with
   | None => ret tt
   | Some newPos =>
       if negb (_checkPos s newPos) then raise OutOfGridError
       else modify_self (set_coords (_coords s ++ [newPos]))
   end)%py.

(** Runs method calls on a local object; the state outside is standard
    output alone.  The value is the object as the calls left it. *)
Definition with_object (o : t) (m : M World unit) : M (list string) t :=
  fun out => match m (mkWorld o out) with
             | (w, Return _) => (stdout w, Return (self w))
             | (w, Raise e) => (stdout w, Raise e)
             end.

(** The class method [fromFile]; [None] is Python's [None]. *)
Definition fromFile (fs : string -> option (list string)) (filePath : string)
    (rows cols : Z) : M (list string) (option t) :=
  (inFile <-
     try_except
       (f <- lift (open fs filePath) ;; ret (Some f))
       FileNotFoundError
       (print "File not found" ;;; ret None) ;;
   match inFile with
   | None => ret None
   | Some inFile =>
       start <-
         try_except
           (let (line1, inFile1) := readline inFile in
            x <- lift (int (strip line1)) ;;
            let (line2, inFile2) := readline inFile1 in
            y <- lift (int (strip line2)) ;;
            ret (Some (x, y, inFile2)))
           TypeError
           (print "Initial coordinate values could not be parsed." ;;;
            ret None) ;;
       match start with
       | None => ret None
       | Some (x, y, inFile) =>
           route <- lift (__init__ rows cols (Coordinate x y)) ;;
           try_except
             (route <- with_object route
                         (for_ inFile (fun line => move (strip line))) ;;
              ret (Some route))
             OutOfGridError
             (print "Error: The route is outside of the grid." ;;;
              ret None)
       end
   end)%py.

End Platform.

End RoutePlotter.

(** * Vocabulary of the properties *)

Import RoutePlotter.

(** The line feed, [os.linesep] on POSIX systems, for the concrete runs. *)
Definition LF : string := String "010" EmptyString.

(** The bounds of the grid, as the specification writes them. *)
Definition in_grid (rows cols : Z) (c : Coordinate.t) : Prop :=
  1 <= Coordinate.x c <= cols /\ 1 <= Coordinate.y c <= rows.

(** The invariant of the route: every coordinate lies in the grid. *)
Definition coords_in_grid (o : t) : Prop :=
  Forall (in_grid (_rows o) (_cols o)) (_coords o).

(** The operations of a tracker. *)
Inductive operation : Type :=
  | Move (direction : string)
  | RemoveCoord (index : option Z)
  | DrawRoute.

(** The state an operation leaves, whether it returns or raises. *)
Definition after (linesep : string) (op : operation) (w : World) : World :=
  match op with
  | Move direction => fst (move direction w)
  | RemoveCoord index => fst (removeCoord index w)
  | DrawRoute => fst (drawRoute linesep w)
  end.

(** The matrix that [drawRoute] starts from. *)
Definition blank (rows cols : Z) : list (list string) :=
  map (fun r => map (fun c => " "%string) (range cols)) (range rows).

(** The text that [drawRoute] builds from the marked matrix. *)
Definition grid_text (linesep : string) (rows cols : Z) (rowSep : string)
    (matrix : list (list string)) : result string :=
  match draw_rows linesep rowSep matrix (range_down (rows - 1) (-1))
          ((str_mul (fmt_right 4 ":") (cols + 1) +:+ fmt_center 3 " " +:+ linesep)
           +:+ rowSep) with
  | Return grid =>
      Return (grid +:+ (fmt_right 4 ":"
              +:+ join ":" (map (fun i => fmt_center 3 (str_of_int (i + 1)))
                                (range cols))
              +:+ ":"))
  | Raise e => Raise e
  end.

(** The cell of [c] exists in [m] and holds the marker. *)
Definition marked (m : list (list string)) (c : Coordinate.t) : Prop :=
  exists r row k,
    py_index (length m) (Coordinate.y c - 1) = Some r /\ m !! r = Some row /\
    py_index (length row) (Coordinate.x c - 1) = Some k /\
    row !! k = Some "x"%string.

(** ** The script run as [__main__] *)

(** How the interactive loop ends: by the [break] on [STOP], by [EOFError]
    out of [input] when standard input has no line left, or by an
    exception out of the loader or the printing; nothing in the loop
    catches any of them. *)
Inductive ending : Type :=
  | Stopped
  | EndOfInput
  | Uncaught (e : exn).

Definition prompt : string :=
  "Enter the next route instructions file, or enter STOP to finish: ".

(** The loop [while True], one turn per line of standard input. [input]
    writes the prompt, then takes the next line, without its line end;
    standard output gets one entry per write. *)
Fixpoint main (linesep : string) (fs : string -> option (list string))
    (stdin : list string) (out : list string) : list string * ending :=
  let out := out ++ [prompt] in
  match stdin with
  | [] => (out, EndOfInput)
  | line :: stdin' =>
      let nextRoute := strip line in
      if decide (nextRoute = "STOP"%string) then (out, Stopped)
      else if decide (nextRoute = ""%string) then main linesep fs stdin' out
      else
        match fromFile linesep fs nextRoute 12 12 out with
        | (out, Raise e) => (out, Uncaught e)
        | (out, Return None) => main linesep fs stdin' out
        | (out, Return (Some routePlotter)) =>
            match (printRoute linesep ;;; printCoords)%py
                    (mkWorld routePlotter out) with
            | (w, Return _) => main linesep fs stdin' (stdout w)
            | (w, Raise e) => (stdout w, Uncaught e)
            end
        end
  end.

(** ** Vocabulary of the further properties *)

(** [b] is one step north, south, east or west of [a]. *)
Definition unit_step (a b : Coordinate.t) : Prop :=
  Z.abs (Coordinate.x b - Coordinate.x a)
  + Z.abs (Coordinate.y b - Coordinate.y a) = 1.

(** Every coordinate of the list is one step from the one before it. *)
Fixpoint is_path (l : list Coordinate.t) : Prop :=
  match l with
  | a :: l' =>
      match l' with
      | b :: _ => unit_step a b /\ is_path l'
      | [] => True
      end
  | [] => True
  end.

(** The direction is a key of [_moves]. *)
Definition known (direction : string) : bool :=
  match _moves !! direction with
  | Some _ => true
  | None => false
  end.

(** What every move keeps of a route: it is not empty, it starts where it
    started, each coordinate is one step from the one before, all are in
    the grid, and the dimensions stay. *)
Definition route_from (start : Coordinate.t) (rows cols : Z) (o : t) : Prop :=
  head (_coords o) = Some start /\ is_path (_coords o) /\
  coords_in_grid o /\ _rows o = rows /\ _cols o = cols.

(** Row [r] (counted from 0) of the matrix that shows the route [l]. *)
Definition paint_row (cols : Z) (l : list Coordinate.t) (r : Z) : list string :=
  map (fun c => if decide (Coordinate (c + 1) (r + 1) ∈ l)
                then "x"%string else " "%string)
      (range cols).

(** The matrix that shows the route [l]: the marker on the cells of [l],
    a blank elsewhere. *)
Definition painted (rows cols : Z) (l : list Coordinate.t) : list (list string) :=
  map (paint_row cols l) (range rows).

(** The line of [drawRoute] for row [r] (counted from 0) of the route [l]:
    the label, the cells, the closing colon. *)
Definition row_line (linesep : string) (cols : Z) (l : list Coordinate.t)
    (r : Z) : string :=
  fmt_right 3 (str_of_int (r + 1)) +:+ ": "
  +:+ join (fmt_center 3 ":") (paint_row cols l r)
  +:+ fmt_right 2 ":" +:+ linesep.

(** The text of a route: the header and a separator, then the lines of the
    rows from the highest to the first, a separator after each, then the
    footer with the numbers of the columns. *)
Definition route_text (linesep : string) (rows cols : Z) (rowSep : string)
    (l : list Coordinate.t) : string :=
  ((str_mul (fmt_right 4 ":") (cols + 1) +:+ fmt_center 3 " " +:+ linesep)
   +:+ rowSep)
  +:+ fold_right String.append ""
        (map (fun r => row_line linesep cols l r +:+ rowSep)
             (reverse (range rows)))
  +:+ (fmt_right 4 ":"
       +:+ join ":" (map (fun i => fmt_center 3 (str_of_int (i + 1)))
                         (range cols))
       +:+ ":").

(** * Properties *)

(** ** Built-ins *)

Lemma py_index_Some (len : nat) (i : Z) (k : nat) :
  py_index len i = Some k -> (k < len)%nat.
Proof.
  unfold py_index. intros H.
  destruct (i <? 0) eqn:Hneg;
    match type of H with (if ?c then _ else _) = _ => destruct c eqn:Hc end;
    try discriminate; injection H as <-; lia.
Qed.

Lemma py_index_valid (len : nat) (i : Z) :
  - Z.of_nat len <= i < Z.of_nat len ->
  py_index len i = Some (Z.to_nat (if i <? 0 then i + Z.of_nat len else i)).
Proof.
  unfold py_index. intros H.
  destruct (i <? 0) eqn:Hneg;
    match goal with |- (if ?c then _ else _) = _ => destruct c eqn:Hc end;
    try reflexivity; lia.
Qed.

Lemma py_index_invalid (len : nat) (i : Z) :
  ~ (- Z.of_nat len <= i < Z.of_nat len) -> py_index len i = None.
Proof.
  unfold py_index. intros H.
  destruct (i <? 0) eqn:Hneg;
    match goal with |- (if ?c then _ else _) = _ => destruct c eqn:Hc end;
    try reflexivity; lia.
Qed.

(** [l[-1]] is the last element, and fails on the empty list only. *)
Lemma getitem_last {A} (l : list A) :
  getitem l (-1) = match last l with Some a => Return a | None => Raise IndexError end.
Proof.
  unfold getitem. destruct l as [|a l].
  - reflexivity.
  - rewrite py_index_valid by (simpl length; lia).
    replace (Z.to_nat _) with (pred (length (a :: l))) by (simpl; lia).
    rewrite <- last_lookup. reflexivity.
Qed.

Lemma list_pop_Raise {A} (l : list A) (i : Z) (e : exn) :
  list_pop l i = Raise e -> e = IndexError.
Proof.
  unfold list_pop. destruct (py_index _ _); [destruct (l !! _)|]; congruence.
Qed.

Lemma list_pop_Return {A} (l : list A) (i : Z) (a : A) (l' : list A) :
  list_pop l i = Return (a, l') -> exists k, l !! k = Some a /\ l' = delete k l.
Proof.
  unfold list_pop. destruct (py_index _ _) as [k|]; [|discriminate].
  destruct (l !! k) eqn:Hk; [|discriminate].
  intros [= <- <-]. eauto.
Qed.

Lemma int_Raise (s : string) (e : exn) : int s = Raise e -> e = ValueError.
Proof. unfold int. destruct (match strip s with EmptyString => _ | _ => _ end); congruence. Qed.

(** ** The table of moves *)

Lemma _moves_outside (d : string) :
  ~ In d ["N"; "S"; "E"; "W"]%string -> _moves !! d = None.
Proof.
  intros H. unfold _moves.
  rewrite !lookup_insert_ne by (intros ?; subst d; apply H; simpl; tauto).
  apply lookup_empty.
Qed.

Lemma _moves_inside (d : string) (delta : Coordinate.t) :
  _moves !! d = Some delta ->
  (d = "N" /\ delta = Coordinate 0 1) \/ (d = "S" /\ delta = Coordinate 0 (-1))
  \/ (d = "E" /\ delta = Coordinate 1 0) \/ (d = "W" /\ delta = Coordinate (-1) 0).
Proof.
  unfold _moves. intros H.
  repeat (apply lookup_insert_Some in H as [[? ?]|[? H]]; [subst; tauto|]).
  rewrite lookup_empty in H. discriminate.
Qed.

(** ** The bounds check *)

Lemma _checkPos_true (o : t) (c : Coordinate.t) :
  _checkPos o c = true <-> in_grid (_rows o) (_cols o) c.
Proof.
  unfold _checkPos, in_grid.
  destruct (Coordinate.x c >=? 1) eqn:H1, (Coordinate.x c <=? _cols o) eqn:H2,
    (Coordinate.y c >=? 1) eqn:H3, (Coordinate.y c <=? _rows o) eqn:H4;
    simpl; split; intros; try discriminate; try reflexivity; lia.
Qed.

Lemma _checkPos_false (o : t) (c : Coordinate.t) :
  _checkPos o c = false <-> ~ in_grid (_rows o) (_cols o) c.
Proof.
  rewrite <- _checkPos_true. destruct (_checkPos o c); split; congruence.
Qed.

(** ** [move], case by case *)

Lemma move_empty (w : World) (d : string) :
  _coords (self w) = [] -> move d w = (w, Raise IndexError).
Proof.
  intros H. unfold move, bind, get_self, lift. rewrite getitem_last, H.
  reflexivity.
Qed.

Lemma move_unknown (w : World) (d : string) (prev : Coordinate.t) :
  last (_coords (self w)) = Some prev -> _moves !! d = None ->
  move d w = (write_line ("Provided direction " +:+ d +:+ " is invalid") w,
              Return tt).
Proof.
  intros Hl Hd. unfold move, bind, get_self, lift, try_except, dict_getitem.
  rewrite getitem_last, Hl, Hd. reflexivity.
Qed.

Lemma move_known (w : World) (d : string) (prev delta : Coordinate.t) :
  last (_coords (self w)) = Some prev -> _moves !! d = Some delta ->
  move d w =
    if _checkPos (self w) (Coordinate.__add__ prev delta)
    then (mkWorld (set_coords (_coords (self w) ++ [Coordinate.__add__ prev delta])
                     (self w)) (stdout w), Return tt)
    else (w, Raise OutOfGridError).
Proof.
  intros Hl Hd. unfold move, bind, get_self, lift, try_except, dict_getitem.
  rewrite getitem_last, Hl, Hd. simpl.
  destruct (_checkPos _ _); reflexivity.
Qed.

(** [move] never touches the dimensions, and the route it leaves is the old
    one, possibly with one coordinate that passed the bounds check. *)
Lemma move_coords (w : World) (d : string) :
  let w' := fst (move d w) in
  _rows (self w') = _rows (self w) /\ _cols (self w') = _cols (self w) /\
  (_coords (self w') = _coords (self w) \/
   exists c, _checkPos (self w) c = true /\
             _coords (self w') = _coords (self w) ++ [c]).
Proof.
  destruct (last (_coords (self w))) as [prev|] eqn:Hl.
  - destruct (_moves !! d) as [delta|] eqn:Hd.
    + rewrite (move_known w d prev delta Hl Hd).
      destruct (_checkPos _ _) eqn:Hc; simpl; eauto 6.
    + rewrite (move_unknown w d prev Hl Hd). simpl. auto.
  - apply last_None in Hl. rewrite (move_empty w d Hl). simpl. auto.
Qed.

(** ** [removeCoord] and [drawRoute], unfolded *)

Lemma removeCoord_unfold (w : World) (index : option Z) :
  removeCoord index w =
    match list_pop (_coords (self w)) (default (-1) index) with
    | Return r => (mkWorld (set_coords (snd r) (self w)) (stdout w), Return tt)
    | Raise e => (w, Raise e)
    end.
Proof.
  unfold removeCoord, bind, get_self, lift, modify_self.
  destruct index as [i|]; simpl; destruct (list_pop _ _); reflexivity.
Qed.

Lemma drawRoute_unfold (linesep : string) (w : World) :
  drawRoute linesep w =
    match for_ (_coords (self w)) mark (blank (_rows (self w)) (_cols (self w))) with
    | (mx, Return _) =>
        (mkWorld (set_matrix mx (self w)) (stdout w),
         grid_text linesep (_rows (self w)) (_cols (self w)) (_rowSep (self w)) mx)
    | (mx, Raise e) => (mkWorld (set_matrix mx (self w)) (stdout w), Raise e)
    end.
Proof.
  unfold drawRoute, bind, get_self, modify_self, on_matrix, lift, ret, grid_text, blank.
  simpl. destruct (for_ _ _ _) as [mx [[]|e]]; simpl; [|reflexivity].
  destruct (draw_rows _ _ _ _ _); reflexivity.
Qed.

(** ** Every operation keeps the route in the grid *)

Lemma move_preserves (w : World) (d : string) :
  coords_in_grid (self w) -> coords_in_grid (self (fst (move d w))).
Proof.
  intros Hinv. destruct (move_coords w d) as (Hr & Hc & [Hsame | (c & Hchk & Happ)]);
    unfold coords_in_grid; rewrite Hr, Hc.
  - rewrite Hsame. exact Hinv.
  - rewrite Happ. apply Forall_app. split; [exact Hinv|].
    constructor; [|constructor]. apply _checkPos_true, Hchk.
Qed.

Lemma removeCoord_preserves (w : World) (index : option Z) :
  coords_in_grid (self w) -> coords_in_grid (self (fst (removeCoord index w))).
Proof.
  intros Hinv. rewrite removeCoord_unfold.
  destruct (list_pop _ _) as [[a l']|e] eqn:Hpop; simpl; [|exact Hinv].
  apply list_pop_Return in Hpop as (k & _ & ->).
  unfold coords_in_grid; simpl. apply Forall_delete, Hinv.
Qed.

Lemma drawRoute_preserves (linesep : string) (w : World) :
  coords_in_grid (self w) -> coords_in_grid (self (fst (drawRoute linesep w))).
Proof.
  intros Hinv. rewrite drawRoute_unfold.
  destruct (for_ _ _ _) as [mx [[]|e]]; exact Hinv.
Qed.

Lemma __init___Return (linesep : string) (rows cols : Z) (start : Coordinate.t) (o : t) :
  __init__ linesep rows cols start = Return o ->
  rows >= 1 /\ cols >= 1 /\ in_grid rows cols start /\
  o = RoutePlotter rows cols [start] []
        (str_mul "---:" (rows + 1) +:+ "---" +:+ linesep).
Proof.
  unfold __init__. destruct ((rows <=? 0) || (cols <=? 0)) eqn:Hdim; [discriminate|].
  destruct (_checkPos _ _) eqn:Hchk; [|discriminate].
  intros [= <-]. apply _checkPos_true in Hchk. simpl in Hchk.
  apply orb_false_iff in Hdim as [H1 H2]. repeat split; try lia; apply Hchk.
Qed.

(** ** The route stays in the grid *)

(** C1. Every tracker that the constructor returns has all its coordinates
    in the grid ([1 <= x <= cols] and [1 <= y <= rows]), and every operation
    ([move], [removeCoord], [drawRoute]) started in a state where this holds
    leaves a state where it holds, whether the operation returns or
    raises. *)
Theorem coords_in_grid_invariant (linesep : string) :
  (forall rows cols start o,
     __init__ linesep rows cols start = Return o -> coords_in_grid o) /\
  (forall op w,
     coords_in_grid (self w) -> coords_in_grid (self (after linesep op w))).
Proof.
  split.
  - intros rows cols start o H.
    apply __init___Return in H as (_ & _ & Hin & ->).
    unfold coords_in_grid; simpl. constructor; [exact Hin|constructor].
  - intros [d|index|] w Hinv; simpl.
    + apply move_preserves, Hinv.
    + apply removeCoord_preserves, Hinv.
    + apply drawRoute_preserves, Hinv.
Qed.

Lemma coords_in_grid_invariant_witness :
  coords_in_grid (RoutePlotter 3 3 [Coordinate 1 1] [] ("---:---:---:---:---" +:+ LF))
  /\ coords_in_grid
       (self (after LF (Move "N")
                (mkWorld (RoutePlotter 3 3 [Coordinate 1 1] []
                            ("---:---:---:---:---" +:+ LF)) []))).
Proof.
  split.
  - apply (proj1 (coords_in_grid_invariant LF) 3 3 (Coordinate 1 1)). reflexivity.
  - apply (proj2 (coords_in_grid_invariant LF) (Move "N")).
    apply (proj1 (coords_in_grid_invariant LF) 3 3 (Coordinate 1 1)). reflexivity.
Defined.

(** ** Rejected moves *)

(** C2. When the direction is one of the table ([N], [S], [E], [W], with its
    unit delta) and the candidate, the last coordinate plus that delta,
    fails the bounds check, [move] raises [OutOfGridError] and the whole
    state, the coordinates among it, is as before the call. *)
Theorem move_out_of_grid (w : World) (direction : string)
    (prev delta : Coordinate.t) :
  In direction ["N"; "S"; "E"; "W"]%string ->
  _moves !! direction = Some delta ->
  last (_coords (self w)) = Some prev ->
  _checkPos (self w) (Coordinate.__add__ prev delta) = false ->
  move direction w = (w, Raise OutOfGridError).
Proof.
  intros _ Hd Hl Hc. rewrite (move_known w direction prev delta Hl Hd), Hc.
  reflexivity.
Qed.

Lemma move_out_of_grid_witness :
  move "N" (mkWorld (RoutePlotter 1 1 [Coordinate 1 1] [] "") [])
  = (mkWorld (RoutePlotter 1 1 [Coordinate 1 1] [] "") [], Raise OutOfGridError).
Proof.
  apply (move_out_of_grid _ "N" (Coordinate 1 1) (Coordinate 0 1)).
  - simpl. tauto.
  - vm_compute. reflexivity.
  - reflexivity.
  - reflexivity.
Defined.

(** ** Construction *)

(** C3. With [rows >= 1], [cols >= 1] and a start coordinate in the grid the
    constructor returns a tracker of these dimensions whose coordinates are
    exactly [[start]]. *)
Theorem __init___valid (linesep : string) (rows cols : Z) (start : Coordinate.t) :
  rows >= 1 -> cols >= 1 ->
  1 <= Coordinate.x start <= cols -> 1 <= Coordinate.y start <= rows ->
  exists o, __init__ linesep rows cols start = Return o /\
            _coords o = [start] /\ _rows o = rows /\ _cols o = cols.
Proof.
  intros Hr Hc Hx Hy. unfold __init__.
  replace ((rows <=? 0) || (cols <=? 0)) with false
    by (symmetry; apply orb_false_iff; lia).
  replace (_checkPos _ start) with true
    by (symmetry; apply _checkPos_true; split; assumption).
  eexists. split; [reflexivity|]. simpl. auto.
Qed.

Lemma __init___valid_witness :
  exists o, __init__ LF 12 12 (Coordinate 4 7) = Return o /\
            _coords o = [Coordinate 4 7] /\ _rows o = 12 /\ _cols o = 12.
Proof. apply (__init___valid LF 12 12 (Coordinate 4 7)); simpl; lia. Defined.

(** C4. With [rows <= 0] or [cols <= 0] the constructor raises the error for
    invalid dimensions, which the module spells [ValueError], whatever the
    start coordinate; so never [OutOfGridError]. *)
Theorem __init___invalid_dimensions (linesep : string) (rows cols : Z)
    (start : Coordinate.t) :
  rows <= 0 \/ cols <= 0 ->
  __init__ linesep rows cols start = Raise ValueError /\
  __init__ linesep rows cols start <> Raise OutOfGridError.
Proof.
  intros H. assert (Hv : __init__ linesep rows cols start = Raise ValueError).
  { unfold __init__.
    replace ((rows <=? 0) || (cols <=? 0)) with true; [reflexivity|].
    symmetry. apply orb_true_iff. lia. }
  rewrite Hv. split; [reflexivity|discriminate].
Qed.

Lemma __init___invalid_dimensions_witness :
  __init__ LF 0 5 (Coordinate 9 9) = Raise ValueError /\
  __init__ LF 0 5 (Coordinate 9 9) <> Raise OutOfGridError.
Proof. apply (__init___invalid_dimensions LF 0 5 (Coordinate 9 9)). lia. Defined.

(** ** Unknown directions *)

(** C5, as the code has it. On a tracker with at least one coordinate, a
    direction outside [N], [S], [E], [W] makes [move] write the message
    about the invalid direction and return without an exception; the object
    is exactly as before, so the calls that follow run as if the token had
    not been there, apart from the message. *)
Theorem move_invalid_direction (w : World) (direction : string) :
  _coords (self w) <> [] ->
  ~ In direction ["N"; "S"; "E"; "W"]%string ->
  move direction w =
    (mkWorld (self w)
       (stdout w ++ ["Provided direction " +:+ direction +:+ " is invalid"]),
     Return tt) /\
  forall rest : list string,
    for_ (direction :: rest) move w =
    for_ rest move
      (mkWorld (self w)
         (stdout w ++ ["Provided direction " +:+ direction +:+ " is invalid"])).
Proof.
  intros Hne Hd.
  destruct (last (_coords (self w))) as [prev|] eqn:Hl;
    [|apply last_None in Hl; contradiction].
  pose proof (move_unknown w direction prev Hl (_moves_outside direction Hd)) as Hm.
  split; [exact Hm|].
  intros rest. simpl. unfold bind at 1. rewrite Hm. reflexivity.
Qed.

Lemma move_invalid_direction_witness :
  move "X" (mkWorld (RoutePlotter 3 3 [Coordinate 1 1] [] "") [])
  = (mkWorld (RoutePlotter 3 3 [Coordinate 1 1] [] "")
       ["Provided direction X is invalid"%string], Return tt).
Proof.
  refine (proj1 (move_invalid_direction
                   (mkWorld (RoutePlotter 3 3 [Coordinate 1 1] [] "") []) "X" _ _)).
  - discriminate.
  - simpl. intros [H|[H|[H|[H|[]]]]]; discriminate H.
Defined.

(** C5, as stated, fails on a tracker whose route was emptied: the tracker
    built on a 3x3 grid at (1,1), after [removeCoord()], raises
    [IndexError] on the token [X], which is outside the table. *)
Lemma move_invalid_direction_counterexample :
  exists o w,
    __init__ LF 3 3 (Coordinate 1 1) = Return o /\
    removeCoord None (mkWorld o []) = (w, Return tt) /\
    ~ In "X"%string ["N"; "S"; "E"; "W"]%string /\
    move "X" w = (w, Raise IndexError).
Proof.
  eexists. eexists. split; [reflexivity|]. split; [reflexivity|]. split.
  - simpl. intros [H|[H|[H|[H|[]]]]]; discriminate H.
  - reflexivity.
Qed.

(** ** Removing coordinates *)

(** C6, as the code has it. [removeCoord] pops the given index, [-1] when
    none is given. A valid index, from [-len] to [len - 1], is removed, also
    when the list has one element and becomes empty; any other index, hence
    every index on an empty list, raises [IndexError] and leaves the state
    as it was. *)
Theorem removeCoord_spec (w : World) (index : option Z) :
  let l := _coords (self w) in
  let i := default (-1) index in
  let len := Z.of_nat (length l) in
  (- len <= i < len ->
   removeCoord index w =
     (mkWorld (set_coords (delete (Z.to_nat (if i <? 0 then i + len else i)) l)
                 (self w)) (stdout w), Return tt)) /\
  (~ (- len <= i < len) -> removeCoord index w = (w, Raise IndexError)) /\
  (length l = 1%nat -> index = None ->
   exists w', removeCoord index w = (w', Return tt) /\ _coords (self w') = []).
Proof.
  intros l i len.
  assert (Hvalid : - len <= i < len ->
    removeCoord index w =
      (mkWorld (set_coords (delete (Z.to_nat (if i <? 0 then i + len else i)) l)
                  (self w)) (stdout w), Return tt)).
  { intros Hi. rewrite removeCoord_unfold. unfold list_pop. fold l i.
    rewrite (py_index_valid (length l) i Hi). fold len.
    destruct (l !! _) as [a|] eqn:Hk; [reflexivity|].
    apply lookup_ge_None in Hk.
    destruct (i <? 0) eqn:Hneg; lia. }
  split; [exact Hvalid|]. split.
  - intros Hi. rewrite removeCoord_unfold. unfold list_pop. fold l i.
    rewrite (py_index_invalid (length l) i Hi). reflexivity.
  - intros Hlen ->. eexists. split.
    + apply Hvalid. subst i len. rewrite Hlen. simpl. lia.
    + simpl. subst i len. fold l. rewrite Hlen. simpl.
      destruct l as [|a [|b l']]; try discriminate. reflexivity.
Qed.

Lemma removeCoord_spec_witness :
  removeCoord (Some 5)
    (mkWorld (RoutePlotter 3 3 [Coordinate 1 1; Coordinate 1 2] [] "") [])
  = (mkWorld (RoutePlotter 3 3 [Coordinate 1 1; Coordinate 1 2] [] "") [],
     Raise IndexError)
  /\ removeCoord None
       (mkWorld (RoutePlotter 3 3 [Coordinate 1 1; Coordinate 1 2] [] "") [])
     = (mkWorld (RoutePlotter 3 3 [Coordinate 1 1] [] "") [], Return tt).
Proof.
  split.
  - apply (proj1 (proj2 (removeCoord_spec
       (mkWorld (RoutePlotter 3 3 [Coordinate 1 1; Coordinate 1 2] [] "") [])
       (Some 5)))).
    simpl. lia.
  - apply (proj1 (removeCoord_spec
       (mkWorld (RoutePlotter 3 3 [Coordinate 1 1; Coordinate 1 2] [] "") [])
       None)).
    simpl. lia.
Defined.

(** C6, as stated, fails: on the tracker built on a 3x3 grid at (1,1), whose
    list has one element, [removeCoord()] returns and leaves the list
    empty. *)
Lemma removeCoord_single_counterexample :
  exists o w,
    __init__ LF 3 3 (Coordinate 1 1) = Return o /\
    length (_coords o) = 1%nat /\
    removeCoord None (mkWorld o []) = (w, Return tt) /\
    _coords (self w) = [].
Proof. do 2 eexists. repeat split; reflexivity. Qed.

(** ** A route on a 3x3 grid *)

(** C7. The table maps [N], [S], [E], [W] to (0,1), (0,-1), (1,0), (-1,0);
    on a 3x3 grid from (1,1) the moves [N], [N], [E] all return, the last
    coordinate is (2,3) and the route is (1,1), (1,2), (1,3), (2,3). *)
Theorem route_N_N_E (linesep : string) :
  _moves !! "N"%string = Some (Coordinate 0 1) /\
  _moves !! "S"%string = Some (Coordinate 0 (-1)) /\
  _moves !! "E"%string = Some (Coordinate 1 0) /\
  _moves !! "W"%string = Some (Coordinate (-1) 0) /\
  exists o w,
    __init__ linesep 3 3 (Coordinate 1 1) = Return o /\
    for_ ["N"; "N"; "E"]%string move (mkWorld o []) = (w, Return tt) /\
    last (_coords (self w)) = Some (Coordinate 2 3) /\
    _coords (self w) =
      [Coordinate 1 1; Coordinate 1 2; Coordinate 1 3; Coordinate 2 3].
Proof.
  repeat (split; [vm_compute; reflexivity|]).
  do 2 eexists. repeat split; reflexivity.
Qed.

(** ** Marking the matrix *)

Lemma mark_Return (m m' : list (list string)) (c : Coordinate.t) :
  mark c m = (m', Return tt) ->
  exists r row k,
    py_index (length m) (Coordinate.y c - 1) = Some r /\ m !! r = Some row /\
    py_index (length row) (Coordinate.x c - 1) = Some k /\
    m' = <[r := <[k := "x"%string]> row]> m.
Proof.
  unfold mark, bind, get, lift, put, getitem, setitem.
  destruct (py_index (length m) _) as [r|] eqn:Hr; [|discriminate].
  destruct (m !! r) as [row|] eqn:Hrow; [|discriminate].
  destruct (py_index (length row) _) as [k|] eqn:Hk; [|discriminate].
  intros [= <-]. exists r, row, k. auto.
Qed.

(** Marking a marked cell changes nothing. *)
Lemma mark_marked (m : list (list string)) (c : Coordinate.t) :
  marked m c -> mark c m = (m, Return tt).
Proof.
  intros (r & row & k & Hr & Hrow & Hk & Hx).
  unfold mark, bind, get, lift, put, getitem, setitem.
  rewrite Hr, Hrow, Hk.
  rewrite (list_insert_id row k _ Hx), (list_insert_id m r _ Hrow).
  reflexivity.
Qed.

(** A mark is there afterwards, and no earlier mark is lost. *)
Lemma mark_keeps (m m' : list (list string)) (c : Coordinate.t) :
  mark c m = (m', Return tt) ->
  marked m' c /\ forall c', marked m c' -> marked m' c'.
Proof.
  intros H. apply mark_Return in H as (r & row & k & Hr & Hrow & Hk & ->).
  pose proof (py_index_Some _ _ _ Hr) as Hrlt.
  pose proof (py_index_Some _ _ _ Hk) as Hklt.
  split.
  - exists r, (<[k := "x"%string]> row), k.
    rewrite !length_insert. repeat split; try assumption.
    + apply list_lookup_insert_eq, Hrlt.
    + apply list_lookup_insert_eq, Hklt.
  - intros c' (r' & row' & k' & Hr' & Hrow' & Hk' & Hx').
    destruct (decide (r' = r)) as [->|Hne].
    + assert (row' = row) as -> by congruence.
      exists r, (<[k := "x"%string]> row), k'.
      rewrite !length_insert. repeat split; try assumption.
      * apply list_lookup_insert_eq, Hrlt.
      * destruct (decide (k' = k)) as [->|Hkne].
        -- apply list_lookup_insert_eq, Hklt.
        -- rewrite list_lookup_insert_ne by congruence. exact Hx'.
    + exists r', row', k'.
      rewrite length_insert. repeat split; try assumption.
      rewrite list_lookup_insert_ne by congruence. exact Hrow'.
Qed.

Lemma bind_assoc {S A B C} (m : M S A) (k : A -> M S B) (h : B -> M S C) (s : S) :
  bind (bind m k) h s = bind m (fun a => bind (k a) h) s.
Proof. unfold bind. destruct (m s) as [s' [a|e]]; reflexivity. Qed.

Lemma bind_ext {S A B} (m : M S A) (k k' : A -> M S B) (s : S) :
  (forall a s', k a s' = k' a s') -> bind m k s = bind m k' s.
Proof. intros H. unfold bind. destruct (m s) as [s' [a|e]]; auto. Qed.

Lemma for__snoc {S A} (l : list A) (a : A) (body : A -> M S unit) (s : S) :
  for_ (l ++ [a]) body s = (for_ l body ;;; body a)%py s.
Proof.
  revert s. induction l as [|b l IH]; intros s; simpl.
  - unfold bind, ret. destruct (body a s) as [s' [[]|e]]; reflexivity.
  - rewrite bind_assoc. apply bind_ext. intros _ s'. apply IH.
Qed.

Lemma for__mark_keeps (l : list Coordinate.t) (m m' : list (list string)) :
  for_ l mark m = (m', Return tt) ->
  (forall c, In c l -> marked m' c) /\ (forall c, marked m c -> marked m' c).
Proof.
  revert m. induction l as [|a l IH]; intros m; simpl.
  - intros [= <-]. split; [contradiction|auto].
  - unfold bind. destruct (mark a m) as [m1 [[]|e]] eqn:Ha; [|discriminate].
    intros Hl. apply mark_keeps in Ha as [Ha Hold].
    apply IH in Hl as [Hin Hkeep]. split.
    + intros c [<-|Hc]; auto.
    + auto.
Qed.

(** The loop of [drawRoute] over a route that ends on a coordinate it has
    already visited is the loop over the route without that last visit. *)
Lemma for__mark_revisit (l : list Coordinate.t) (c : Coordinate.t)
    (m : list (list string)) :
  In c l -> for_ (l ++ [c]) mark m = for_ l mark m.
Proof.
  intros Hc. rewrite for__snoc. unfold bind.
  destruct (for_ l mark m) as [m' [[]|e]] eqn:Hl; [|reflexivity].
  apply mark_marked. apply (proj1 (for__mark_keeps l m m' Hl)). exact Hc.
Qed.

(** ** Rendering twice, rendering a revisited cell *)

(** C8. [drawRoute] called again on the tracker that a first call left
    gives the same result as the first call, string or exception, and
    leaves the same state; and on a tracker whose route got one more
    coordinate that was already in it, [drawRoute] gives the same result as
    on the tracker without that last coordinate. *)
Theorem drawRoute_deterministic (linesep : string) :
  (forall w,
     drawRoute linesep (fst (drawRoute linesep w)) = drawRoute linesep w) /\
  (forall w c,
     In c (_coords (self w)) ->
     snd (drawRoute linesep
            (mkWorld (set_coords (_coords (self w) ++ [c]) (self w)) (stdout w)))
     = snd (drawRoute linesep w)).
Proof.
  split.
  - intros w. rewrite (drawRoute_unfold linesep w).
    destruct (for_ _ _ _) as [mx [[]|e]] eqn:Hfill; simpl fst;
      rewrite drawRoute_unfold; simpl; rewrite Hfill; reflexivity.
  - intros w c Hc. rewrite !drawRoute_unfold. simpl.
    rewrite (for__mark_revisit _ c _ Hc).
    destruct (for_ _ _ _) as [mx [[]|e]]; reflexivity.
Qed.

Lemma drawRoute_deterministic_witness :
  snd (drawRoute LF
         (mkWorld (RoutePlotter 2 2 [Coordinate 1 1; Coordinate 1 2; Coordinate 1 1]
                     [] "") []))
  = snd (drawRoute LF
           (mkWorld (RoutePlotter 2 2 [Coordinate 1 1; Coordinate 1 2] [] "") [])).
Proof.
  apply (proj2 (drawRoute_deterministic LF)
           (mkWorld (RoutePlotter 2 2 [Coordinate 1 1; Coordinate 1 2] [] "") [])
           (Coordinate 1 1)).
  simpl. tauto.
Defined.

(** What the module prints for a 2x3 grid with the route (1,1), (1,2),
    (2,2). *)
Example drawRoute_2x3 :
  exists o,
    __init__ LF 2 3 (Coordinate 1 1) = Return o /\
    snd ((move "N" ;;; move "E" ;;; drawRoute LF)%py (mkWorld o [])) =
    Return ("   :   :   :   :   " +:+ LF +:+
            "---:---:---:---" +:+ LF +:+
            "  2: x : x :   :" +:+ LF +:+
            "---:---:---:---" +:+ LF +:+
            "  1: x :   :   :" +:+ LF +:+
            "---:---:---:---" +:+ LF +:+
            "   : 1 : 2 : 3 :").
Proof. eexists. split; reflexivity. Qed.

(** ** The loader *)

(** C9 fails on the code. When the file exists and its first line, or else
    its second, is not an integer literal, [int] raises [ValueError]; the
    handler around the two conversions is for [TypeError], so the exception
    leaves [fromFile]: nothing is printed and [None] is not returned. *)
Theorem fromFile_malformed_start (linesep : string)
    (fs : string -> option (list string)) (filePath : string)
    (lines : list string) (rows cols : Z) (out : list string) :
  fs filePath = Some lines ->
  (exists e, int (strip (fst (readline lines))) = Raise e) \/
  (exists e, int (strip (fst (readline (snd (readline lines))))) = Raise e) ->
  fromFile linesep fs filePath rows cols out = (out, Raise ValueError).
Proof.
  intros Hfs Hbad.
  unfold fromFile, bind at 1, try_except at 1, bind at 1, lift at 1, open.
  rewrite Hfs. simpl.
  unfold bind at 1, try_except at 1.
  destruct (readline lines) as [line1 inFile1]. simpl in Hbad.
  unfold bind at 1, lift at 1.
  destruct (int (strip line1)) as [x|e1] eqn:H1.
  - destruct Hbad as [[e He]|[e He]]; [discriminate|].
    destruct (readline inFile1) as [line2 inFile2]. simpl in He.
    unfold bind at 1, lift at 1. rewrite He.
    rewrite (int_Raise _ _ He). reflexivity.
  - rewrite (int_Raise _ _ H1). reflexivity.
Qed.

Lemma fromFile_malformed_start_witness :
  fromFile LF (fun _ => Some ["abc" +:+ LF; "2" +:+ LF; "N" +:+ LF]) "route.txt"
    12 12 []
  = ([], Raise ValueError).
Proof.
  apply (fromFile_malformed_start LF _ "route.txt" ["abc" +:+ LF; "2" +:+ LF; "N" +:+ LF]).
  - reflexivity.
  - left. exists ValueError. vm_compute. reflexivity.
Defined.

(** ** The last coordinate *)

(** C10. After a [removeCoord] that emptied the route, [move] raises
    [IndexError], not [OutOfGridError], whatever the direction; on a route
    that is not empty the access to the last coordinate returns it and
    [move] does not raise [IndexError]. *)
Theorem move_last_access :
  (forall w index w' direction,
     removeCoord index w = (w', Return tt) -> _coords (self w') = [] ->
     move direction w' = (w', Raise IndexError) /\
     snd (move direction w') <> Raise OutOfGridError) /\
  (forall w direction,
     _coords (self w) <> [] ->
     (exists prev, getitem (_coords (self w)) (-1) = Return prev) /\
     snd (move direction w) <> Raise IndexError).
Proof.
  split.
  - intros w index w' direction _ Hempty.
    rewrite (move_empty w' direction Hempty). split; [reflexivity|discriminate].
  - intros w direction Hne.
    destruct (last (_coords (self w))) as [prev|] eqn:Hl;
      [|apply last_None in Hl; contradiction].
    split.
    + exists prev. rewrite getitem_last, Hl. reflexivity.
    + destruct (_moves !! direction) as [delta|] eqn:Hd.
      * rewrite (move_known w direction prev delta Hl Hd).
        destruct (_checkPos _ _); discriminate.
      * rewrite (move_unknown w direction prev Hl Hd). discriminate.
Qed.

Lemma move_last_access_witness :
  move "N" (mkWorld (RoutePlotter 3 3 [] [] "") [])
  = (mkWorld (RoutePlotter 3 3 [] [] "") [], Raise IndexError)
  /\ snd (move "N" (mkWorld (RoutePlotter 3 3 [Coordinate 1 1] [] "") []))
     <> Raise IndexError.
Proof.
  split.
  - apply (proj1 move_last_access
             (mkWorld (RoutePlotter 3 3 [Coordinate 1 1] [] "") []) None
             (mkWorld (RoutePlotter 3 3 [] [] "") []) "N");
      reflexivity.
  - apply (proj2 move_last_access
             (mkWorld (RoutePlotter 3 3 [Coordinate 1 1] [] "") []) "N").
    discriminate.
Defined.

(** * Further properties of the module *)

(** ** Generic facts on loops *)

Lemma for__invariant {S A} (I : S -> Prop) (body : A -> M S unit) (l : list A) :
  (forall a s, I s -> I (fst (body a s))) ->
  forall s, I s -> I (fst (for_ l body s)).
Proof.
  intros Hbody. induction l as [|a l IH]; intros s Hs; simpl; [exact Hs|].
  unfold bind. specialize (Hbody a s Hs).
  destruct (body a s) as [s' [[]|e]]; simpl in *; auto.
Qed.

Lemma for__raises {S A} (I : S -> Prop) (P : exn -> Prop) (body : A -> M S unit)
    (l : list A) :
  (forall a s, I s -> I (fst (body a s))) ->
  (forall a s e, I s -> snd (body a s) = Raise e -> P e) ->
  forall s e, I s -> snd (for_ l body s) = Raise e -> P e.
Proof.
  intros Hinv Hexn. induction l as [|a l IH]; intros s e Hs; simpl; [discriminate|].
  unfold bind. specialize (Hinv a s Hs). specialize (Hexn a s).
  destruct (body a s) as [s' [[]|e']]; simpl in *.
  - apply IH, Hinv.
  - intros [= <-]. apply Hexn; auto.
Qed.

(** ** Coordinates *)

(** X1. Addition of coordinates is commutative and associative, and (0,0)
    is neutral on both sides. *)
Theorem Coordinate_add_monoid (a b c : Coordinate.t) :
  Coordinate.__add__ a b = Coordinate.__add__ b a /\
  Coordinate.__add__ a (Coordinate.__add__ b c)
  = Coordinate.__add__ (Coordinate.__add__ a b) c /\
  Coordinate.__add__ a (Coordinate 0 0) = a /\
  Coordinate.__add__ (Coordinate 0 0) a = a.
Proof.
  destruct a as [xa ya], b as [xb yb], c as [xc yc].
  unfold Coordinate.__add__, Coordinate.__init__; simpl.
  repeat split; f_equal; lia.
Qed.

(** ** Moves *)

Lemma known_In (d : string) :
  known d = true <-> In d ["N"; "S"; "E"; "W"]%string.
Proof.
  unfold known. split.
  - destruct (_moves !! d) as [delta|] eqn:Hd; [|discriminate]. intros _.
    apply _moves_inside in Hd as [[-> _]|[[-> _]|[[-> _]|[-> _]]]]; simpl; tauto.
  - intros Hin. destruct (_moves !! d) eqn:Hd; [reflexivity|].
    destruct Hin as [<-|[<-|[<-|[<-|[]]]]]; vm_compute in Hd; discriminate.
Qed.

Lemma _moves_unit (d : string) (delta p : Coordinate.t) :
  _moves !! d = Some delta -> unit_step p (Coordinate.__add__ p delta).
Proof.
  intros Hd. destruct p as [px py].
  apply _moves_inside in Hd as [[_ ->]|[[_ ->]|[[_ ->]|[_ ->]]]];
    unfold unit_step, Coordinate.__add__, Coordinate.__init__; simpl; lia.
Qed.

(** The three ways a move can end on a route that is not empty. *)
Lemma move_outcome (w : World) (d : string) (prev : Coordinate.t) :
  last (_coords (self w)) = Some prev ->
  (known d = true /\
   exists new, unit_step prev new /\
     in_grid (_rows (self w)) (_cols (self w)) new /\
     move d w = (mkWorld (set_coords (_coords (self w) ++ [new]) (self w))
                   (stdout w), Return tt)) \/
  (known d = true /\ move d w = (w, Raise OutOfGridError)) \/
  (known d = false /\
   move d w = (mkWorld (self w)
                 (stdout w ++ ["Provided direction " +:+ d +:+ " is invalid"]),
               Return tt)).
Proof.
  intros Hl. unfold known. destruct (_moves !! d) as [delta|] eqn:Hd.
  - rewrite (move_known w d prev delta Hl Hd).
    destruct (_checkPos _ _) eqn:Hc.
    + left. split; [reflexivity|]. exists (Coordinate.__add__ prev delta).
      repeat split; try apply (_checkPos_true (self w)), Hc.
      apply (_moves_unit d), Hd.
    + right. left. auto.
  - right. right. split; [reflexivity|]. apply (move_unknown w d prev Hl Hd).
Qed.

Lemma last_is_Some {A} (l : list A) : l <> [] -> exists a, last l = Some a.
Proof.
  intros Hne. destruct (last l) as [a|] eqn:Hl; [eauto|].
  apply last_None in Hl. contradiction.
Qed.

Lemma set_coords_same (w : World) :
  mkWorld (set_coords (_coords (self w)) (self w)) (stdout w) = w.
Proof. destruct w as [[r c l m sep] out]. reflexivity. Qed.

(** X2. A move in a direction of the table that returns has appended
    exactly one coordinate, one step from the previous last one and in the
    grid; nothing else of the object changed and nothing was printed. *)
Theorem move_appends_step (w w' : World) (direction : string) :
  known direction = true ->
  move direction w = (w', Return tt) ->
  exists prev new,
    last (_coords (self w)) = Some prev /\
    unit_step prev new /\
    in_grid (_rows (self w)) (_cols (self w)) new /\
    w' = mkWorld (set_coords (_coords (self w) ++ [new]) (self w)) (stdout w).
Proof.
  intros Hk Hm.
  destruct (last (_coords (self w))) as [prev|] eqn:Hl.
  - destruct (move_outcome w direction prev Hl)
      as [(_ & new & Hstep & Hin & Heq)|[(_ & Heq)|(Hk' & _)]].
    + exists prev, new. rewrite Heq in Hm. injection Hm as <-. auto.
    + rewrite Heq in Hm. discriminate.
    + congruence.
  - apply last_None in Hl. rewrite (move_empty w direction Hl) in Hm. discriminate.
Qed.

Lemma move_appends_step_witness :
  exists prev new,
    last [Coordinate 1 1] = Some prev /\
    unit_step prev new /\
    in_grid 3 3 new /\
    mkWorld (RoutePlotter 3 3 [Coordinate 1 1; Coordinate 2 1] [] "") []
    = mkWorld (set_coords ([Coordinate 1 1] ++ [new])
                 (RoutePlotter 3 3 [Coordinate 1 1] [] "")) [].
Proof.
  apply (move_appends_step (mkWorld (RoutePlotter 3 3 [Coordinate 1 1] [] "") [])
           (mkWorld (RoutePlotter 3 3 [Coordinate 1 1; Coordinate 2 1] [] "") []) "E").
  - vm_compute. reflexivity.
  - vm_compute. reflexivity.
Defined.

(** What a sequence of moves does to the route, however it ends. *)
Lemma moves_extend (ds : list string) (w : World) :
  _coords (self w) <> [] ->
  let r := for_ ds move w in
  exists new,
    _coords (self (fst r)) = _coords (self w) ++ new /\
    _rows (self (fst r)) = _rows (self w) /\
    _cols (self (fst r)) = _cols (self w) /\
    (snd r = Return tt \/ snd r = Raise OutOfGridError) /\
    (snd r = Return tt -> length new = length (List.filter known ds)) /\
    (length new <= length (List.filter known ds))%nat.
Proof.
  revert w. induction ds as [|d ds IH]; intros w Hne; simpl.
  - exists []. rewrite app_nil_r. unfold ret; simpl. auto 10.
  - destruct (last_is_Some _ Hne) as [prev Hl].
    unfold bind.
    destruct (move_outcome w d prev Hl)
      as [(Hk & new & _ & _ & Heq)|[(Hk & Heq)|(Hk & Heq)]]; rewrite Heq, Hk.
    + destruct (IH (mkWorld (set_coords (_coords (self w) ++ [new]) (self w))
                      (stdout w))) as (new' & Hc & Hr & Hcl & Hres & Hlen & Hle).
      { simpl. destruct (_coords (self w)); discriminate. }
      exists (new :: new'). simpl in *. rewrite Hc, <- app_assoc. simpl.
      repeat split; auto; try lia; try (intros H; rewrite (Hlen H); reflexivity).
    + exists []. rewrite app_nil_r. simpl. repeat split; auto; try lia; discriminate.
    + destruct (IH (mkWorld (self w)
                      (stdout w ++ ["Provided direction " +:+ d +:+ " is invalid"])))
        as (new' & Hc & Hr & Hcl & Hres & Hlen & Hle); [exact Hne|].
      exists new'. simpl in *. auto 10.
Qed.

(** X3. When a sequence of moves on a tracker with a route returns, the
    route is the old one followed by one new coordinate for each token that
    is a direction of the table; the other tokens add nothing. *)
Theorem moves_length (ds : list string) (w w' : World) :
  _coords (self w) <> [] ->
  for_ ds move w = (w', Return tt) ->
  exists new,
    _coords (self w') = _coords (self w) ++ new /\
    length new = length (List.filter known ds).
Proof.
  intros Hne Hrun. destruct (moves_extend ds w Hne) as (new & Hc & _ & _ & _ & Hlen & _).
  rewrite Hrun in Hc, Hlen. simpl in Hc, Hlen. exists new. auto.
Qed.

Lemma moves_length_witness :
  exists new,
    [Coordinate 1 1; Coordinate 1 2; Coordinate 2 2] = [Coordinate 1 1] ++ new /\
    length new = length (List.filter known ["N"; "up"; "E"; ""]%string).
Proof.
  apply (moves_length ["N"; "up"; "E"; ""]%string
           (mkWorld (RoutePlotter 3 3 [Coordinate 1 1] [] "") [])
           (mkWorld (RoutePlotter 3 3
                       [Coordinate 1 1; Coordinate 1 2; Coordinate 2 2] [] "")
              ["Provided direction up is invalid"%string;
               "Provided direction  is invalid"%string])).
  - discriminate.
  - vm_compute. reflexivity.
Defined.

(** X4. A sequence of moves on a tracker with a route ends in a return or
    in [OutOfGridError], in no other exception; when it raises, the moves
    accepted before the failing one stay in the route: it is the old route
    followed by at most one coordinate per direction token. *)
Theorem moves_failure (ds : list string) (w w' : World) (e : exn) :
  _coords (self w) <> [] ->
  for_ ds move w = (w', Raise e) ->
  e = OutOfGridError /\
  exists new,
    _coords (self w') = _coords (self w) ++ new /\
    (length new <= length (List.filter known ds))%nat.
Proof.
  intros Hne Hrun.
  destruct (moves_extend ds w Hne) as (new & Hc & _ & _ & Hres & _ & Hle).
  rewrite Hrun in Hc, Hres. simpl in Hc, Hres. split.
  - destruct Hres as [H|H]; congruence.
  - exists new. auto.
Qed.

Lemma moves_failure_witness :
  OutOfGridError = OutOfGridError /\
  exists new,
    [Coordinate 1 1; Coordinate 1 2] = [Coordinate 1 1] ++ new /\
    (length new <= length (List.filter known ["N"; "N"; "E"]%string))%nat.
Proof.
  apply (moves_failure ["N"; "N"; "E"]%string
           (mkWorld (RoutePlotter 2 2 [Coordinate 1 1] [] "") [])
           (mkWorld (RoutePlotter 2 2 [Coordinate 1 1; Coordinate 1 2] [] "") [])).
  - discriminate.
  - vm_compute. reflexivity.
Defined.

(** X5. [removeCoord()] undoes a move: after a move in a direction of the
    table that returned, removing the last coordinate gives back the state
    before the move. *)
Theorem move_removeCoord_undo (w w' : World) (direction : string) :
  known direction = true ->
  move direction w = (w', Return tt) ->
  removeCoord None w' = (w, Return tt).
Proof.
  intros Hk Hm.
  destruct (last (_coords (self w))) as [prev|] eqn:Hl.
  - destruct (move_outcome w direction prev Hl)
      as [(_ & new & _ & _ & Heq)|[(_ & Heq)|(Hk' & _)]]; [| |congruence].
    + rewrite Heq in Hm. injection Hm as <-.
      rewrite removeCoord_unfold. unfold list_pop. simpl.
      rewrite py_index_valid by (rewrite length_app; simpl; lia).
      rewrite length_app. simpl.
      replace (Z.to_nat _) with (length (_coords (self w))) by lia.
      rewrite list_lookup_middle by reflexivity.
      rewrite delete_middle, app_nil_r. simpl.
      destruct w as [[r c l m sep] out]. reflexivity.
    + rewrite Heq in Hm. discriminate.
  - apply last_None in Hl. rewrite (move_empty w direction Hl) in Hm. discriminate.
Qed.

Lemma move_removeCoord_undo_witness :
  removeCoord None
    (mkWorld (RoutePlotter 3 3 [Coordinate 2 2; Coordinate 1 2] [] "") [])
  = (mkWorld (RoutePlotter 3 3 [Coordinate 2 2] [] "") [], Return tt).
Proof.
  apply (move_removeCoord_undo
           (mkWorld (RoutePlotter 3 3 [Coordinate 2 2] [] "") []) _ "W").
  - vm_compute. reflexivity.
  - vm_compute. reflexivity.
Defined.

(** X6. There and back: on a tracker whose route is in the grid, after a
    move that returned, the move in the opposite direction (the one whose
    delta cancels the first) returns too and appends the coordinate the
    tracker was on before the first move. *)
Theorem move_there_and_back (w w1 : World) (d d' : string)
    (delta delta' : Coordinate.t) :
  _moves !! d = Some delta -> _moves !! d' = Some delta' ->
  Coordinate.__add__ delta delta' = Coordinate 0 0 ->
  coords_in_grid (self w) ->
  move d w = (w1, Return tt) ->
  exists prev,
    last (_coords (self w)) = Some prev /\
    move d' w1 = (mkWorld (set_coords (_coords (self w1) ++ [prev]) (self w1))
                    (stdout w1), Return tt).
Proof.
  intros Hd Hd' Hcancel Hinv Hm.
  destruct (last (_coords (self w))) as [prev|] eqn:Hl.
  - exists prev. split; [reflexivity|].
    rewrite (move_known w d prev delta Hl Hd) in Hm.
    destruct (_checkPos _ _) eqn:Hc; [|discriminate].
    injection Hm as <-.
    rewrite (move_known _ d' (Coordinate.__add__ prev delta) delta'); simpl;
      [|apply last_snoc|exact Hd'].
    assert (Hback : Coordinate.__add__ (Coordinate.__add__ prev delta) delta' = prev).
    { destruct prev as [px py], delta as [dx dy], delta' as [dx' dy'].
      unfold Coordinate.__add__, Coordinate.__init__ in *. simpl in *.
      injection Hcancel as Hx Hy. f_equal; lia. }
    rewrite Hback.
    assert (Hprev : _checkPos (self w) prev = true).
    { apply _checkPos_true. unfold coords_in_grid in Hinv.
      rewrite Forall_forall in Hinv. apply Hinv.
      apply last_Some in Hl as [l' ->]. set_solver. }
    unfold _checkPos in *. simpl. rewrite Hprev. reflexivity.
  - apply last_None in Hl. rewrite (move_empty w d Hl) in Hm. discriminate.
Qed.

Lemma move_there_and_back_witness :
  exists prev,
    last [Coordinate 2 2] = Some prev /\
    move "S" (mkWorld (RoutePlotter 3 3 [Coordinate 2 2; Coordinate 2 3] [] "") [])
    = (mkWorld (set_coords ([Coordinate 2 2; Coordinate 2 3] ++ [prev])
                  (RoutePlotter 3 3 [Coordinate 2 2; Coordinate 2 3] [] "")) [],
       Return tt).
Proof.
  apply (move_there_and_back
           (mkWorld (RoutePlotter 3 3 [Coordinate 2 2] [] "") [])
           (mkWorld (RoutePlotter 3 3 [Coordinate 2 2; Coordinate 2 3] [] "") [])
           "N" "S" (Coordinate 0 1) (Coordinate 0 (-1))).
  - vm_compute. reflexivity.
  - vm_compute. reflexivity.
  - reflexivity.
  - unfold coords_in_grid, in_grid. simpl. constructor; [simpl; lia|constructor].
  - vm_compute. reflexivity.
Defined.

Lemma is_path_snoc (l : list Coordinate.t) (p c : Coordinate.t) :
  is_path l -> last l = Some p -> unit_step p c -> is_path (l ++ [c]).
Proof.
  induction l as [|a [|b l'] IH]; simpl.
  - discriminate.
  - intros _ [= ->] Hs. auto.
  - intros [Hab Hp] Hl Hs. split; [exact Hab|]. apply IH; assumption.
Qed.

Lemma move_route_from (start : Coordinate.t) (rows cols : Z) (d : string)
    (w : World) :
  route_from start rows cols (self w) ->
  route_from start rows cols (self (fst (move d w))).
Proof.
  intros (Hhd & Hpath & Hgrid & Hr & Hc).
  assert (Hne : _coords (self w) <> []) by (intros H; rewrite H in Hhd; discriminate).
  destruct (last_is_Some _ Hne) as [prev Hl].
  destruct (move_outcome w d prev Hl)
    as [(_ & new & Hstep & Hin & Heq)|[(_ & Heq)|(_ & Heq)]]; rewrite Heq; simpl.
  - unfold route_from, coords_in_grid. simpl. repeat split; auto.
    + destruct (_coords (self w)); [discriminate|exact Hhd].
    + apply (is_path_snoc _ prev); assumption.
    + apply Forall_app. split; [exact Hgrid|]. constructor; [exact Hin|constructor].
  - repeat split; assumption.
  - repeat split; assumption.
Qed.

(** X7. A tracker built by the constructor and driven by any sequence of
    moves, whether the sequence returns or stops on an exception, keeps a
    route that starts on the initial position, proceeds by single steps and
    lies in the grid; the dimensions are the ones given. *)
Theorem moves_keep_route (linesep : string) (rows cols : Z)
    (start : Coordinate.t) (o : t) (ds : list string) (out : list string) :
  __init__ linesep rows cols start = Return o ->
  route_from start rows cols (self (fst (for_ ds move (mkWorld o out)))).
Proof.
  intros Hinit. apply (for__invariant (fun w => route_from start rows cols (self w))).
  - intros d w. apply move_route_from.
  - apply __init___Return in Hinit as (_ & _ & Hin & ->).
    unfold route_from, coords_in_grid. simpl.
    split; [reflexivity|]. split; [exact I|]. split; [|auto].
    constructor; [exact Hin|constructor].
Qed.

Lemma moves_keep_route_witness :
  route_from (Coordinate 1 1) 2 2
    (self (fst (for_ ["N"; "E"; "E"; "S"]%string move
                  (mkWorld (RoutePlotter 2 2 [Coordinate 1 1] []
                              ("---:---:---:---" +:+ LF)) [])))).
Proof.
  apply (moves_keep_route LF 2 2 (Coordinate 1 1)). reflexivity.
Defined.

(** ** The matrix of [drawRoute] *)

Lemma length_range (n : Z) : length (range n) = Z.to_nat n.
Proof. unfold range. rewrite length_map, length_seq. reflexivity. Qed.

Lemma lookup_range (n : Z) (k : nat) :
  (k < Z.to_nat n)%nat -> range n !! k = Some (Z.of_nat k).
Proof.
  intros Hk. unfold range.
  rewrite (list_lookup_fmap Z.of_nat), lookup_seq_lt by exact Hk. reflexivity.
Qed.

Lemma length_paint_row (cols : Z) (l : list Coordinate.t) (r : Z) :
  length (paint_row cols l r) = Z.to_nat cols.
Proof. unfold paint_row. rewrite length_map. apply length_range. Qed.

Lemma lookup_paint_row (cols : Z) (l : list Coordinate.t) (r : Z) (k : nat) :
  (k < Z.to_nat cols)%nat ->
  paint_row cols l r !! k =
    Some (if decide (Coordinate (Z.of_nat k + 1) (r + 1) ∈ l) then "x" else " ")%string.
Proof.
  intros Hk. unfold paint_row.
  rewrite (list_lookup_fmap _ (range cols)), lookup_range by exact Hk. reflexivity.
Qed.

Lemma length_painted (rows cols : Z) (l : list Coordinate.t) :
  length (painted rows cols l) = Z.to_nat rows.
Proof. unfold painted. rewrite length_map. apply length_range. Qed.

Lemma lookup_painted (rows cols : Z) (l : list Coordinate.t) (r : nat) :
  (r < Z.to_nat rows)%nat ->
  painted rows cols l !! r = Some (paint_row cols l (Z.of_nat r)).
Proof.
  intros Hr. unfold painted.
  rewrite (list_lookup_fmap _ (range rows)), lookup_range by exact Hr. reflexivity.
Qed.

Lemma blank_painted (rows cols : Z) : blank rows cols = painted rows cols [].
Proof.
  unfold blank, painted, paint_row.
  apply map_ext. intros r. apply map_ext. intros c.
  destruct (decide _) as [H|_]; [|reflexivity]. inversion H.
Qed.

(** Marking a cell of the grid on the matrix of a route gives the matrix of
    the route with that cell added. *)
Lemma mark_painted (rows cols : Z) (l : list Coordinate.t) (c : Coordinate.t) :
  in_grid rows cols c ->
  mark c (painted rows cols l) = (painted rows cols (l ++ [c]), Return tt).
Proof.
  intros [Hx Hy]. destruct c as [cx cy]. simpl in Hx, Hy.
  unfold mark, bind, get, lift, put, getitem, setitem. simpl.
  rewrite length_painted.
  rewrite py_index_valid by lia.
  replace (cy - 1 <? 0) with false by (symmetry; apply Z.ltb_ge; lia).
  rewrite lookup_painted by lia.
  rewrite length_paint_row.
  rewrite py_index_valid by lia.
  replace (cx - 1 <? 0) with false by (symmetry; apply Z.ltb_ge; lia).
  f_equal.
  apply (list_eq_same_length _ _ (Z.to_nat rows)).
  - apply length_painted.
  - rewrite length_insert. apply length_painted.
  - intros r row1 row2 Hr. rewrite list_lookup_insert, length_painted.
    rewrite (lookup_painted _ _ (l ++ [Coordinate cx cy])) by exact Hr.
    destruct (decide _) as [[Heq _]|Hne].
    + intros [= <-] [= <-]. subst r. rewrite Z2Nat.id by lia.
      apply (list_eq_same_length _ _ (Z.to_nat cols)).
      * apply length_paint_row.
      * rewrite length_insert. apply length_paint_row.
      * intros k s1 s2 Hk. rewrite list_lookup_insert, length_paint_row.
        rewrite !lookup_paint_row by exact Hk.
        destruct (decide (_ ∧ _)) as [[Hkeq _]|Hkne].
        -- intros [= <-] [= <-]. subst k. rewrite Z2Nat.id by lia.
           replace (cx - 1 + 1) with cx by lia. replace (cy - 1 + 1) with cy by lia.
           rewrite decide_True; [reflexivity|].
           apply elem_of_app. right. apply list_elem_of_singleton. reflexivity.
        -- intros [= <-] [= <-]. symmetry. apply decide_ext.
           rewrite elem_of_app, list_elem_of_singleton.
           split; [intros [H|[= H1 H2]]; [exact H|exfalso; apply Hkne; lia]|auto].
    + rewrite lookup_painted by exact Hr.
      intros [= <-] [= <-]. unfold paint_row. apply map_ext. intros c'.
      symmetry. apply decide_ext.
      rewrite elem_of_app, list_elem_of_singleton.
      split; [intros [H|[= H1 H2]]; [exact H|exfalso; apply Hne; lia]|auto].
Qed.

Lemma fill_painted (rows cols : Z) (l l0 : list Coordinate.t) :
  Forall (in_grid rows cols) l ->
  for_ l mark (painted rows cols l0) = (painted rows cols (l0 ++ l), Return tt).
Proof.
  revert l0. induction l as [|c l IH]; intros l0 Hl; simpl.
  - rewrite app_nil_r. reflexivity.
  - apply Forall_cons in Hl as [Hc Hl]. unfold bind.
    rewrite (mark_painted rows cols l0 c Hc), (IH _ Hl), <- app_assoc.
    reflexivity.
Qed.

Lemma getitem_painted (rows cols : Z) (l : list Coordinate.t) (i : Z) :
  0 <= i < rows -> getitem (painted rows cols l) i = Return (paint_row cols l i).
Proof.
  intros Hi. unfold getitem. rewrite length_painted.
  rewrite py_index_valid by lia.
  replace (i <? 0) with false by (symmetry; apply Z.ltb_ge; lia).
  rewrite lookup_painted by lia. rewrite Z2Nat.id by lia. reflexivity.
Qed.

Lemma getitem_paint_row (cols : Z) (l : list Coordinate.t) (r i : Z) :
  0 <= i < cols ->
  getitem (paint_row cols l r) i =
    Return (if decide (Coordinate (i + 1) (r + 1) ∈ l) then "x" else " ")%string.
Proof.
  intros Hi. unfold getitem. rewrite length_paint_row.
  rewrite py_index_valid by lia.
  replace (i <? 0) with false by (symmetry; apply Z.ltb_ge; lia).
  rewrite lookup_paint_row by lia. rewrite Z2Nat.id by lia. reflexivity.
Qed.

Lemma append_assoc (s1 s2 s3 : string) : (s1 +:+ s2) +:+ s3 = s1 +:+ (s2 +:+ s3).
Proof.
  induction s1 as [|c s1 IH]; [reflexivity|].
  change (String c ((s1 +:+ s2) +:+ s3) = String c (s1 +:+ (s2 +:+ s3))).
  f_equal. exact IH.
Qed.

Lemma append_empty_r (s : string) : s +:+ "" = s.
Proof.
  induction s as [|c s IH]; [reflexivity|].
  change (String c (s +:+ "") = String c s). f_equal. exact IH.
Qed.

Lemma draw_rows_painted (linesep rowSep : string) (rows cols : Z)
    (l : list Coordinate.t) (indices : list Z) (grid : string) :
  Forall (fun i => 0 <= i < rows) indices ->
  draw_rows linesep rowSep (painted rows cols l) indices grid =
    Return (grid +:+ fold_right String.append ""
                       (map (fun r => row_line linesep cols l r +:+ rowSep)
                            indices)).
Proof.
  revert grid. induction indices as [|i indices IH]; intros grid Hall;
    cbn [draw_rows map fold_right].
  - rewrite append_empty_r. reflexivity.
  - apply Forall_cons in Hall as [Hi Hall].
    rewrite (getitem_painted rows cols l i Hi), (IH _ Hall).
    fold (row_line linesep cols l i). rewrite !append_assoc. reflexivity.
Qed.

Lemma range_down_reverse (n : Z) : range_down (n - 1) (-1) = reverse (range n).
Proof.
  apply (list_eq_same_length _ _ (Z.to_nat n)).
  - rewrite length_reverse. apply length_range.
  - unfold range_down. rewrite length_map, length_seq. f_equal. lia.
  - intros i a b Hi. unfold range_down.
    rewrite (list_lookup_fmap _ (seq _ _)), lookup_seq_lt by lia.
    rewrite reverse_lookup by (rewrite length_range; exact Hi).
    rewrite length_range, lookup_range by lia.
    simpl. intros [= <-] [= <-]. lia.
Qed.

Lemma range_bounds (n i : Z) : i ∈ range n -> 0 <= i < n.
Proof.
  unfold range. intros Hin.
  apply (list_elem_of_fmap Z.of_nat) in Hin as (k & -> & Hk).
  apply elem_of_seq in Hk. lia.
Qed.

(** The result of [drawRoute] on a tracker whose route is in the grid. *)
Lemma drawRoute_painted (linesep : string) (w : World) :
  coords_in_grid (self w) ->
  drawRoute linesep w =
    (mkWorld (set_matrix (painted (_rows (self w)) (_cols (self w))
                            (_coords (self w))) (self w)) (stdout w),
     Return (route_text linesep (_rows (self w)) (_cols (self w))
               (_rowSep (self w)) (_coords (self w)))).
Proof.
  intros Hinv. rewrite drawRoute_unfold, blank_painted.
  rewrite (fill_painted _ _ _ [] Hinv). simpl. f_equal.
  unfold grid_text, route_text.
  rewrite draw_rows_painted.
  - rewrite range_down_reverse, !append_assoc. reflexivity.
  - rewrite range_down_reverse. apply Forall_forall. intros i Hi.
    rewrite elem_of_reverse in Hi. apply range_bounds, Hi.
Qed.

(** ** Rendering *)

(** X8. On a tracker whose route is in the grid [drawRoute] does not raise.
    It returns the header line and a separator, then one line per row from
    row [rows] down to row 1, each followed by a separator, then the footer;
    the line of a row holds the marker in the columns of the visited cells
    of that row and a blank in the others. Of the object only [_matrix]
    changes, and nothing is printed. *)
Theorem drawRoute_text (linesep : string) (w : World) :
  coords_in_grid (self w) ->
  exists matrix,
    drawRoute linesep w =
      (mkWorld (set_matrix matrix (self w)) (stdout w),
       Return (route_text linesep (_rows (self w)) (_cols (self w))
                 (_rowSep (self w)) (_coords (self w)))).
Proof. intros Hinv. eexists. apply drawRoute_painted, Hinv. Qed.

Lemma drawRoute_text_witness :
  exists matrix,
    drawRoute LF (mkWorld (RoutePlotter 2 3 [Coordinate 1 1; Coordinate 2 1] [] "|") [])
    = (mkWorld (set_matrix matrix
                  (RoutePlotter 2 3 [Coordinate 1 1; Coordinate 2 1] [] "|")) [],
       Return (route_text LF 2 3 "|" [Coordinate 1 1; Coordinate 2 1])).
Proof.
  apply (drawRoute_text LF
           (mkWorld (RoutePlotter 2 3 [Coordinate 1 1; Coordinate 2 1] [] "|") [])).
  unfold coords_in_grid, in_grid. simpl.
  constructor; [simpl; lia|]. constructor; [simpl; lia|]. constructor.
Defined.

(** X9. After [drawRoute] on a tracker whose route is in the grid, the
    matrix entry [_matrix[y - 1][x - 1]] of every cell (x, y) of the grid is
    the marker when (x, y) is in the route and a blank when it is not. *)
Theorem drawRoute_matrix_cells (linesep : string) (w : World) (cx cy : Z) :
  coords_in_grid (self w) ->
  1 <= cx <= _cols (self w) -> 1 <= cy <= _rows (self w) ->
  exists row,
    getitem (_matrix (self (fst (drawRoute linesep w)))) (cy - 1) = Return row /\
    getitem row (cx - 1) =
      Return (if decide (Coordinate cx cy ∈ _coords (self w)) then "x" else " ")%string.
Proof.
  intros Hinv Hx Hy. rewrite (drawRoute_painted linesep w Hinv). simpl.
  eexists. split.
  - apply getitem_painted. lia.
  - rewrite getitem_paint_row by lia.
    replace (cx - 1 + 1) with cx by lia. replace (cy - 1 + 1) with cy by lia.
    reflexivity.
Qed.

Lemma drawRoute_matrix_cells_witness :
  exists row,
    getitem (_matrix (self (fst (drawRoute LF
       (mkWorld (RoutePlotter 2 3 [Coordinate 1 1; Coordinate 2 1] [] "|") [])))))
      (1 - 1) = Return row /\
    getitem row (2 - 1) =
      Return (if decide (Coordinate 2 1 ∈ [Coordinate 1 1; Coordinate 2 1])
              then "x" else " ")%string.
Proof.
  apply (drawRoute_matrix_cells LF
           (mkWorld (RoutePlotter 2 3 [Coordinate 1 1; Coordinate 2 1] [] "|") []) 2 1).
  - unfold coords_in_grid, in_grid. simpl.
    constructor; [simpl; lia|]. constructor; [simpl; lia|]. constructor.
  - simpl. lia.
  - simpl. lia.
Defined.

Lemma paint_row_ext (cols : Z) (l1 l2 : list Coordinate.t) (r : Z) :
  (forall c, c ∈ l1 <-> c ∈ l2) -> paint_row cols l1 r = paint_row cols l2 r.
Proof.
  intros Hsame. unfold paint_row.
  apply map_ext. intros c. apply decide_ext, Hsame.
Qed.

Lemma route_text_ext (linesep : string) (rows cols : Z) (rowSep : string)
    (l1 l2 : list Coordinate.t) :
  (forall c, c ∈ l1 <-> c ∈ l2) ->
  route_text linesep rows cols rowSep l1 = route_text linesep rows cols rowSep l2.
Proof.
  intros Hsame. unfold route_text.
  rewrite (map_ext (fun r => row_line linesep cols l1 r +:+ rowSep)
                   (fun r => row_line linesep cols l2 r +:+ rowSep));
    [reflexivity|].
  intros r. unfold row_line. rewrite (paint_row_ext cols l1 l2 r Hsame). reflexivity.
Qed.

(** X10. The text does not depend on the order of the visits nor on how
    often a cell was visited: two trackers with the same dimensions and
    separator whose routes are in the grid and visit the same cells get the
    same text from [drawRoute]. *)
Theorem drawRoute_same_cells (linesep : string) (w1 w2 : World) :
  _rows (self w1) = _rows (self w2) -> _cols (self w1) = _cols (self w2) ->
  _rowSep (self w1) = _rowSep (self w2) ->
  coords_in_grid (self w1) ->
  (forall c, c ∈ _coords (self w1) <-> c ∈ _coords (self w2)) ->
  snd (drawRoute linesep w1) = snd (drawRoute linesep w2).
Proof.
  intros Hr Hc Hsep Hinv Hsame.
  assert (Hinv2 : coords_in_grid (self w2)).
  { unfold coords_in_grid in *. rewrite <- Hr, <- Hc.
    rewrite Forall_forall in *. intros c Hin. apply Hinv, Hsame, Hin. }
  rewrite (drawRoute_painted linesep w1 Hinv), (drawRoute_painted linesep w2 Hinv2).
  simpl. rewrite Hr, Hc, Hsep. f_equal. apply route_text_ext, Hsame.
Qed.

Lemma drawRoute_same_cells_witness :
  snd (drawRoute LF
         (mkWorld (RoutePlotter 2 2 [Coordinate 1 1; Coordinate 1 2; Coordinate 1 1]
                     [] "|") []))
  = snd (drawRoute LF
           (mkWorld (RoutePlotter 2 2 [Coordinate 1 2; Coordinate 1 1] [] "|") [])).
Proof.
  apply (drawRoute_same_cells LF
           (mkWorld (RoutePlotter 2 2 [Coordinate 1 1; Coordinate 1 2; Coordinate 1 1]
                       [] "|") [])
           (mkWorld (RoutePlotter 2 2 [Coordinate 1 2; Coordinate 1 1] [] "|") []));
    try reflexivity.
  - unfold coords_in_grid, in_grid. simpl.
    repeat (constructor; [simpl; lia|]). constructor.
  - intros c. simpl. rewrite !elem_of_cons, !elem_of_nil. tauto.
Defined.

(** ** Printing *)

Lemma for__print (l : list Coordinate.t) (w : World) :
  for_ l (fun coord => print (Coordinate.__str__ coord)) w =
    (mkWorld (self w) (stdout w ++ map Coordinate.__str__ l), Return tt).
Proof.
  revert w. induction l as [|c l IH]; intros w; simpl.
  - rewrite app_nil_r. destruct w. reflexivity.
  - unfold bind, print. simpl. rewrite IH. simpl.
    rewrite <- app_assoc. reflexivity.
Qed.

Lemma printCoords_unfolded (w : World) :
  printCoords w =
    (mkWorld (self w)
       (stdout w ++ map Coordinate.__str__ (_coords (self w))), Return tt).
Proof. unfold printCoords, bind, get_self. apply for__print. Qed.

(** X11. [printCoords] writes the coordinates of the route in route order,
    one entry each in the form of [__str__]; it does not raise, also on an
    empty route, and leaves the object as it is. *)
Theorem printCoords_output (w : World) :
  printCoords w =
    (mkWorld (self w)
       (stdout w ++ map Coordinate.__str__ (_coords (self w))), Return tt).
Proof. apply printCoords_unfolded. Qed.

(** X12. On a tracker whose route is in the grid [printRoute] does not
    raise and writes one entry, the text of the route that [drawRoute]
    returns. *)
Theorem printRoute_output (linesep : string) (w : World) :
  coords_in_grid (self w) ->
  exists matrix,
    printRoute linesep w =
      (mkWorld (set_matrix matrix (self w))
         (stdout w ++ [route_text linesep (_rows (self w)) (_cols (self w))
                         (_rowSep (self w)) (_coords (self w))]),
       Return tt).
Proof.
  intros Hinv. eexists. unfold printRoute, bind.
  rewrite (drawRoute_painted linesep w Hinv). reflexivity.
Qed.

Lemma printRoute_output_witness :
  exists matrix,
    printRoute LF (mkWorld (RoutePlotter 1 1 [Coordinate 1 1] [] "|") ["before"%string])
    = (mkWorld (set_matrix matrix (RoutePlotter 1 1 [Coordinate 1 1] [] "|"))
         (["before"%string] ++ [route_text LF 1 1 "|" [Coordinate 1 1]]),
       Return tt).
Proof.
  apply (printRoute_output LF
           (mkWorld (RoutePlotter 1 1 [Coordinate 1 1] [] "|") ["before"%string])).
  unfold coords_in_grid, in_grid. simpl. constructor; [simpl; lia|constructor].
Defined.

(** ** The loader, case by case *)



Lemma fromFile_parsed (linesep : string) (fs : string -> option (list string))
    (filePath : string) (lines : list string) (rows cols : Z) (out : list string)
    (x y : Z) :
  fs filePath = Some lines ->
  int (strip (fst (readline lines))) = Return x ->
  int (strip (fst (readline (snd (readline lines))))) = Return y ->
  fromFile linesep fs filePath rows cols out =
    match __init__ linesep rows cols (Coordinate x y) with
    | Raise e => (out, Raise e)
    | Return route =>
        match for_ (snd (readline (snd (readline lines))))
                (fun line => move (strip line)) (mkWorld route out) with
        | (w, Return _) => (stdout w, Return (Some (self w)))
        | (w, Raise e) =>
            if decide (e = OutOfGridError)
            then (stdout w ++ ["Error: The route is outside of the grid."%string],
                  Return None)
            else (stdout w, Raise e)
        end
    end.
Proof.
  intros Hfs Hx Hy.
  unfold fromFile, bind at 1, try_except at 1, bind at 1, lift at 1, open.
  rewrite Hfs. simpl.
  unfold bind at 1, try_except at 1.
  destruct (readline lines) as [line1 inFile1]. cbn [fst snd] in *.
  unfold bind at 1, lift at 1. rewrite Hx.
  destruct (readline inFile1) as [line2 inFile2]. cbn [fst snd] in *.
  unfold bind at 1, lift at 1. rewrite Hy. simpl.
  unfold bind at 1, lift at 1.
  destruct (__init__ linesep rows cols (Coordinate x y)) as [route|e]; [|reflexivity].
  unfold try_except, bind, with_object.
  destruct (for_ inFile2 _ _) as [w [[]|e]]; simpl; [reflexivity|].
  destruct (decide (e = OutOfGridError)); reflexivity.
Qed.


Lemma __init___Raise (linesep : string) (rows cols : Z) (start : Coordinate.t)
    (e : exn) :
  __init__ linesep rows cols start = Raise e ->
  (e = ValueError /\ (rows <= 0 \/ cols <= 0)) \/
  (e = OutOfGridError /\ rows >= 1 /\ cols >= 1 /\ ~ in_grid rows cols start).
Proof.
  unfold __init__. destruct ((rows <=? 0) || (cols <=? 0)) eqn:Hdim.
  - intros [= <-]. left. split; [reflexivity|].
    apply orb_true_iff in Hdim. lia.
  - destruct (_checkPos _ _) eqn:Hc; [discriminate|]. intros [= <-]. right.
    apply orb_false_iff in Hdim. apply _checkPos_false in Hc. simpl in Hc.
    repeat split; try lia. exact Hc.
Qed.

(** ** The loader *)



(** X14. The handler for [OutOfGridError] in [fromFile] covers the moves
    only: when the two first lines are integers and the dimensions are
    positive but the start they give is outside the grid, the constructor's
    [OutOfGridError] leaves [fromFile] and nothing is written. *)
Theorem fromFile_start_outside (linesep : string)
    (fs : string -> option (list string)) (filePath : string)
    (lines : list string) (rows cols : Z) (out : list string) (x y : Z) :
  fs filePath = Some lines ->
  int (strip (fst (readline lines))) = Return x ->
  int (strip (fst (readline (snd (readline lines))))) = Return y ->
  rows >= 1 -> cols >= 1 -> ~ in_grid rows cols (Coordinate x y) ->
  fromFile linesep fs filePath rows cols out = (out, Raise OutOfGridError).
Proof.
  intros Hfs Hx Hy Hr Hc Hout.
  rewrite (fromFile_parsed linesep fs filePath lines rows cols out x y Hfs Hx Hy).
  destruct (__init__ _ _ _ _) as [route|e] eqn:Hinit.
  - apply __init___Return in Hinit as (_ & _ & Hin & _). contradiction.
  - apply __init___Raise in Hinit as [[_ Hdim]|[-> _]]; [lia|reflexivity].
Qed.

Lemma fromFile_start_outside_witness :
  fromFile LF (fun _ => Some ["0" +:+ LF; "1" +:+ LF; "N" +:+ LF]) "route.txt" 12 12 []
  = ([], Raise OutOfGridError).
Proof.
  apply (fromFile_start_outside LF _ "route.txt"
           ["0" +:+ LF; "1" +:+ LF; "N" +:+ LF] 12 12 [] 0 1).
  - reflexivity.
  - vm_compute. reflexivity.
  - vm_compute. reflexivity.
  - lia.
  - lia.
  - unfold in_grid. simpl. lia.
Defined.







(** ** The interactive loop *)




(** X17. The loop ends on the first line that is [STOP] once stripped: the
    lines after it are not read, whatever they are. *)
Theorem main_stops (linesep : string) (fs : string -> option (list string))
    (before after : list string) (line : string) (out : list string) :
  strip line = "STOP"%string ->
  main linesep fs (before ++ line :: after) out =
  main linesep fs (before ++ [line]) out.
Proof.
  intros Hstop. revert out. induction before as [|l before IH]; intros out.
  - cbn [app main]. rewrite !(decide_True _ _ Hstop). reflexivity.
  - cbn [app main].
    destruct (decide (strip l = "STOP"%string)); [reflexivity|].
    destruct (decide (strip l = ""%string)); [apply IH|].
    destruct (fromFile _ _ _ _ _ _) as [out1 [[route|]|e]]; [|apply IH|reflexivity].
    destruct ((printRoute linesep ;;; printCoords)%py _) as [w [[]|e]];
      [apply IH|reflexivity].
Qed.

Lemma main_stops_witness :
  main LF (fun _ => None)
    (["nowhere.txt"%string] ++ " STOP "%string :: ["more"%string; "lines"%string]) []
  = main LF (fun _ => None) (["nowhere.txt"%string] ++ [" STOP "%string]) [].
Proof.
  apply (main_stops LF (fun _ => None) ["nowhere.txt"%string]
           ["more"; "lines"]%string " STOP " []).
  vm_compute. reflexivity.
Defined.









(** ** The width of the separator *)

Lemma length_append (s1 s2 : string) :
  String.length (s1 +:+ s2) = (String.length s1 + String.length s2)%nat.
Proof.
  induction s1 as [|c s1 IH]; [reflexivity|].
  change (S (String.length (s1 +:+ s2)) = S (String.length s1 + String.length s2)).
  f_equal. exact IH.
Qed.

Lemma length_str_mul (s : string) (n : Z) :
  String.length (str_mul s n) = (Z.to_nat n * String.length s)%nat.
Proof.
  unfold str_mul. induction (Z.to_nat n) as [|k IH]; [reflexivity|].
  change (Nat.iter (S k) (fun acc => s +:+ acc) ""%string)
    with (s +:+ Nat.iter k (fun acc => s +:+ acc) ""%string).
  rewrite length_append, IH. lia.
Qed.

(** X22. The separator that the constructor builds follows the number of
    rows, the header line of [drawRoute] the number of columns: on a
    tracker of the constructor the separator, its line end apart, has
    [4 * (rows + 1) + 3] characters and the header, its line end apart,
    [4 * (cols + 1) + 3]; they have the same width exactly when
    [rows = cols]. *)
Theorem rowSep_width (linesep : string) (rows cols : Z) (start : Coordinate.t)
    (o : t) :
  __init__ linesep rows cols start = Return o ->
  Z.of_nat (String.length (_rowSep o))
  = 4 * (rows + 1) + 3 + Z.of_nat (String.length linesep) /\
  Z.of_nat (String.length (str_mul (fmt_right 4 ":") (_cols o + 1) +:+ fmt_center 3 " "))
  = 4 * (cols + 1) + 3 /\
  (String.length (_rowSep o)
   = String.length ((str_mul (fmt_right 4 ":") (_cols o + 1) +:+ fmt_center 3 " ")
                    +:+ linesep)
   <-> rows = cols).
Proof.
  intros Hinit. apply __init___Return in Hinit as (Hr & Hc & _ & ->). simpl _rowSep.
  simpl _cols.
  assert (Hsep : Z.of_nat (String.length
                   (str_mul "---:" (rows + 1) +:+ "---" +:+ linesep))
                 = 4 * (rows + 1) + 3 + Z.of_nat (String.length linesep)).
  { rewrite !length_append, length_str_mul. simpl String.length. lia. }
  assert (Hhead : Z.of_nat (String.length
                    (str_mul (fmt_right 4 ":") (cols + 1) +:+ fmt_center 3 " "))
                  = 4 * (cols + 1) + 3).
  { rewrite length_append, length_str_mul. simpl String.length. lia. }
  split; [exact Hsep|]. split; [exact Hhead|].
  rewrite (length_append (_ +:+ _) linesep). lia.
Qed.

Lemma rowSep_width_witness :
  Z.of_nat (String.length ("---:---:---:---" +:+ LF))
  = 4 * (2 + 1) + 3 + Z.of_nat (String.length LF) /\
  Z.of_nat (String.length (str_mul (fmt_right 4 ":") (5 + 1) +:+ fmt_center 3 " "))
  = 4 * (5 + 1) + 3 /\
  (String.length ("---:---:---:---" +:+ LF)
   = String.length ((str_mul (fmt_right 4 ":") (5 + 1) +:+ fmt_center 3 " ") +:+ LF)
   <-> 2 = 5).
Proof.
  apply (rowSep_width LF 2 5 (Coordinate 1 1)
           (RoutePlotter 2 5 [Coordinate 1 1] [] ("---:---:---:---" +:+ LF))).
  reflexivity.
Defined.
